(** * OpenClaw AWS installer / uninstaller: reconciliation and teardown engine

    A shallow embedding of the convergence helpers of [installer.py] and of
    the teardown helpers of [uninstaller.py], together with the properties
    of the engine that the specification states about them.

    The boto3 clients are the only collaborators of the code.  They are
    modelled as one handler [api] over an abstract remote state: a request
    (one constructor of [ApiCall] per client method, carrying the keyword
    arguments the code passes) is answered with either a payload or the
    error code of a [botocore.exceptions.ClientError].  Python exceptions,
    [try]/[except], [for] loops with early [return]/[break], [time.sleep],
    [time.time] and [logger] calls are modelled by a small state, error and
    trace monad. *)

From Stdlib Require Import List String Ascii Arith PeanoNat NArith Bool Lia Permutation.
From Stdlib Require DecimalString.
Import ListNotations.
Open Scope string_scope.
Open Scope list_scope.

(** ** Remote data, as the code reads it out of boto3 responses *)

(** [{"Name": ..., "Values": [...]}] *)
Definition Filter : Type := (string * list string)%type.

Record Tag : Type := mkTag { Key : string; Value : string }.

Record IpPermission : Type := mkIpPermission {
  IpProtocol : string;
  IpRanges : list string            (* the [CidrIp] of each range *)
}.

Record SecurityGroup : Type := mkSecurityGroup {
  GroupId : string;
  GroupName : string;
  IpPermissions : list IpPermission;
  IpPermissionsEgress : list IpPermission
}.

Record VpcEndpoint : Type := mkVpcEndpoint {
  VpcEndpointId : string;
  VpcEndpoint_State : string
}.

Record NatGateway : Type := mkNatGateway {
  NatGatewayId : string;
  NatGateway_State : string
}.

Record Subnet : Type := mkSubnet {
  SubnetId : string;
  Subnet_Tags : list Tag;           (* [s.get("Tags", [])] *)
  Subnet_State : string;
  Subnet_CidrBlock : string
}.

Record Route : Type := mkRoute {
  DestinationCidrBlock : option string;
  GatewayId : option string;        (* [r.get("GatewayId", "")] *)
  Route_NatGatewayId : option string
}.

Record RouteTable : Type := mkRouteTable {
  RouteTableId : string;
  Routes : list Route
}.

Record NetworkInterface : Type := mkNetworkInterface {
  NetworkInterfaceId : string;
  NetworkInterface_Status : string
}.

Record Role : Type := mkRole { RoleName : string }.

Record InstanceProfile : Type := mkInstanceProfile {
  Arn : string;
  Roles : list Role
}.

Record LoadBalancer : Type := mkLoadBalancer { LoadBalancerArn : string }.
Record Listener : Type := mkListener { ListenerArn : string }.
Record TargetGroup : Type := mkTargetGroup {
  TargetGroupArn : string;
  TargetGroupName : string
}.

(** [describe_subnets] is called either with [SubnetIds=] or with [Filters=]. *)
Inductive SubnetSelector : Type :=
| BySubnetIds (ids : list string)
| ByFilters (filters : list Filter).

(** ** The client methods the embedded code calls *)

Inductive ApiCall : Type :=
(* ec2 *)
| DescribeSecurityGroups (filters : list Filter)
| CreateSecurityGroup (group_name description vpc_id : string)
| DescribeVpcEndpoints (filters : list Filter)
| CreateVpcEndpoint (vpc_id service_name : string)
                    (subnet_ids security_group_ids : list string)
| DescribeNatGateways (nat_gateway_ids : list string)
| DescribeSubnets (sel : SubnetSelector)
| CreateSubnet (vpc_id cidr_block availability_zone name_tag : string)
| ModifySubnetAttribute (subnet_id : string)
| AssociateRouteTable (route_table_id subnet_id : string)
| DescribeRouteTables (filters : list Filter)
| DescribeNetworkInterfaces (filters : list Filter)
| DeleteSubnet (subnet_id : string)
| RevokeSecurityGroupIngress (group_id : string) (perms : list IpPermission)
| RevokeSecurityGroupEgress (group_id : string) (perms : list IpPermission)
| DeleteSecurityGroup (group_id : string)
| DeleteVpc (vpc_id : string)
(* iam *)
| CreateRole (role_name : string)
| UpdateAssumeRolePolicy (role_name : string)
| PutRolePolicy (role_name policy_name : string)
| AttachRolePolicy (role_name policy_arn : string)
| CreateInstanceProfile (profile_name : string)
| GetInstanceProfile (profile_name : string)
| RemoveRoleFromInstanceProfile (profile_name role_name : string)
| AddRoleToInstanceProfile (profile_name role_name : string)
(* elbv2 *)
| DescribeLoadBalancers (names : list string)
| DescribeListeners (load_balancer_arn : string)
| DeleteListener (listener_arn : string)
| DeleteLoadBalancer (load_balancer_arn : string)
| WaitLoadBalancersDeleted (load_balancer_arn : string) (delay max_attempts : nat)
| DescribeTargetGroups (names : list string)
| DeleteTargetGroup (target_group_arn : string).

(** The part of the response the code reads, per method. *)
Definition Resp (c : ApiCall) : Type :=
  match c with
  | DescribeSecurityGroups _ => list SecurityGroup
  | CreateSecurityGroup _ _ _ => string
  | DescribeVpcEndpoints _ => list VpcEndpoint
  | CreateVpcEndpoint _ _ _ _ => string
  | DescribeNatGateways _ => list NatGateway
  | DescribeSubnets _ => list Subnet
  | CreateSubnet _ _ _ _ => string
  | DescribeRouteTables _ => list RouteTable
  | DescribeNetworkInterfaces _ => list NetworkInterface
  | GetInstanceProfile _ => InstanceProfile
  | DescribeLoadBalancers _ => list LoadBalancer
  | DescribeListeners _ => list Listener
  | DescribeTargetGroups _ => list TargetGroup
  | _ => unit
  end.

(** Lookups ([describe_*], [get_*]) leave the remote state as it is; every
    other method, and the library waiter, may change it. *)
Definition mutating (c : ApiCall) : bool :=
  match c with
  | DescribeSecurityGroups _ | DescribeVpcEndpoints _ | DescribeNatGateways _
  | DescribeSubnets _ | DescribeRouteTables _ | DescribeNetworkInterfaces _
  | GetInstanceProfile _ | DescribeLoadBalancers _ | DescribeListeners _
  | DescribeTargetGroups _ => false
  | _ => true
  end.

Inductive ApiResult (A : Type) : Type :=
| ApiOk (a : A)
| ApiErr (code : string).          (* [exc.response["Error"]["Code"]] *)
Arguments ApiOk {A} a.
Arguments ApiErr {A} code.

(** ** Exceptions, log records and the trace of a run *)

Inductive exn : Type :=
| ClientError (code : string)
| WaiterError (reason : string)
| RuntimeError (about : string)
| IndexError
| ZeroDivisionError
| ValueError.

Definition is_ClientError (e : exn) : bool :=
  match e with ClientError _ => true | _ => false end.

Inductive Level : Type := INFO | WARNING.

(** One constructor per [logger] call of the embedded functions; the
    arguments are the values interpolated into the message. *)
Inductive Msg : Type :=
| AlreadyExists (label : string)                 (* _safe_create *)
| SgReused (name sg_id : string)
| SgCreated (name sg_id : string)
| EndpointReused (eid : string)
| EndpointCreated (eid : string)
| NoFreeCidr (az : string)
| SubnetCreated (sid az cidr : string)
| CidrCollision (cidr : string)
| RoleCreated (role_name : string)
| RoleReused (role_name : string)
| ProfileCreated (profile_name : string)
| ProfileReused (profile_name : string)
| OldRoleRemoved (old_role profile_name : string)
| ProfilePropagationWait
| AlbLookupFailed (code : string)
| ListenerDeleted (arn : string)
| ListenerDeleteWarning (code : string)
| AlbDeleteRequested (alb_name : string)
| AlbDeleteFailed (code : string)
| AlbDeleteWaitWarning
| NoAlb
| TargetGroupDeleted (tg_name : string)
| TargetGroupDeleteFailed (code : string)
| SubnetDeleted (subnet_id : string)
| SubnetDeleteDeferred (subnet_id code : string)
| SgDeleted (sg_id : string)
| SgDeleteDeferred (sg_id code : string)
| VpcDeleted (vpc_id : string)
| VpcAlreadyDeleted (vpc_id : string)
| VpcRetryAfter (wait_sec : nat) (vpc_id : string)
| VpcDeleteFailed (vpc_id code : string)
| RemainingSubnets (ids : list string)
| RemainingSecurityGroups (ids : list string)
| RemainingNetworkInterfaces (ids : list string)
| RemainingVpcEndpoints (ids : list string)
| DependencyLookupFailed (code : string)
| NextStep (desc : string).

Inductive Event : Type :=
| Call (c : ApiCall)
| Sleep (seconds : nat)
| Log (lvl : Level) (m : Msg).

Definition is_call (p : ApiCall -> bool) (e : Event) : bool :=
  match e with Call c => p c | _ => false end.

Inductive Outcome (A : Type) : Type :=
| Ret (a : A)
| Raise (e : exn).
Arguments Ret {A} a.
Arguments Raise {A} e.

(** ** The environment and the monad *)

(** The remote control plane, as far as the code can observe it. *)
Class Remote : Type := {
  (** the state of the remote account *)
  RemoteState : Type;
  (** how a request is answered in a given state *)
  api : forall c : ApiCall, RemoteState -> ApiResult (Resp c) * RemoteState;
  (** what the remote does by itself while the process sleeps [n] seconds *)
  elapse : nat -> RemoteState -> RemoteState;
  (** how long a request takes, in seconds of the process clock *)
  latency : ApiCall -> RemoteState -> nat
}.

Section Monad.

Context {rem : Remote}.

Record World : Type := mkWorld {
  remote : RemoteState;
  clock : nat                      (* [time.time()], in whole seconds *)
}.

Record Run (A : Type) : Type := mkRun {
  outcome : Outcome A;
  final : World;
  events : list Event              (* what this run did, oldest first *)
}.
Arguments mkRun {A} outcome final events.
Arguments outcome {A} r.
Arguments final {A} r.
Arguments events {A} r.

Definition M (A : Type) : Type := World -> Run A.

Definition ret {A} (a : A) : M A := fun w => mkRun (Ret a) w [].

Definition raise {A} (e : exn) : M A := fun w => mkRun (Raise e) w [].

Definition bind {A B} (m : M A) (f : A -> M B) : M B :=
  fun w =>
    let r := m w in
    match outcome r with
    | Ret a =>
        let r' := f a (final r) in
        mkRun (outcome r') (final r') (events r ++ events r')
    | Raise e => mkRun (Raise e) (final r) (events r)
    end.

(** [try: m / except ...: h e]; a handler answering [None] stands for an
    [except] clause that does not match, or that re-raises with [raise]. *)
Definition try_except {A} (m : M A) (h : exn -> option (M A)) : M A :=
  fun w =>
    let r := m w in
    match outcome r with
    | Ret _ => r
    | Raise e =>
        match h e with
        | Some k =>
            let r' := k (final r) in
            mkRun (outcome r') (final r') (events r ++ events r')
        | None => r
        end
    end.

(** A method call on a boto3 client. *)
Definition call (c : ApiCall) : M (Resp c) :=
  fun w =>
    let w' := mkWorld (if mutating c then snd (api c (remote w)) else remote w)
                      (clock w + latency c (remote w)) in
    match fst (api c (remote w)) with
    | ApiOk a => mkRun (Ret a) w' [Call c]
    | ApiErr code => mkRun (Raise (ClientError code)) w' [Call c]
    end.

(** [waiter.wait(...)]: the library waiter fails with a [WaiterError]. *)
Definition wait_for (c : ApiCall) : M (Resp c) :=
  try_except (call c)
    (fun e => match e with
              | ClientError code => Some (raise (WaiterError code))
              | _ => None
              end).

Definition time_sleep (n : nat) : M unit :=
  fun w => mkRun (Ret tt) (mkWorld (elapse n (remote w)) (clock w + n)) [Sleep n].

Definition time_time : M nat := fun w => mkRun (Ret (clock w)) w [].

Definition logger (lvl : Level) (m : Msg) : M unit :=
  fun w => mkRun (Ret tt) w [Log lvl m].

(** [for x in l: body], with the local variables the body updates threaded
    as [s].  The body answers [inl s'] to go on with the next element
    (also for [continue]) and [inr a] to leave the loop at once ([break],
    or [return a] from the enclosing function). *)
Fixpoint for_each {X S A} (l : list X) (body : X -> S -> M (S + A)) (s : S)
  : M (S + A) :=
  match l with
  | [] => ret (inl s)
  | x :: l' =>
      bind (body x s) (fun r =>
        match r with
        | inl s' => for_each l' body s'
        | inr a => ret (inr a)
        end)
  end.

(** A [for] loop that is never left early. *)
Fixpoint for_all {X S} (l : list X) (body : X -> S -> M S) (s : S) : M S :=
  match l with
  | [] => ret s
  | x :: l' => bind (body x s) (for_all l' body)
  end.

(** How a [while] loop was left. *)
Inductive LoopExit (A : Type) : Type :=
| Exhausted                        (* the condition became false *)
| Returned (a : A)                 (* [return a] inside the body *)
| OutOfFuel.                       (* the model stopped unrolling *)

(** [while cond: body], unrolled at most [fuel] times; the body answers
    [Some a] for [return a]. *)
Fixpoint while_do {A} (fuel : nat) (cond : M bool) (body : M (option A))
  : M (LoopExit A) :=
  match fuel with
  | 0 => ret (OutOfFuel A)
  | S fuel' =>
      bind cond (fun b =>
        if b then
          bind body (fun r =>
            match r with
            | Some a => ret (Returned A a)
            | None => while_do fuel' cond body
            end)
        else ret (Exhausted A))
  end.

(** [l[0]] *)
Definition subscript0 {A} (l : list A) : M A :=
  match l with
  | x :: _ => ret x
  | [] => raise IndexError
  end.

End Monad.

Arguments mkRun {rem A} outcome final events.
Arguments outcome {rem A} r.
Arguments final {rem A} r.
Arguments events {rem A} r.
Arguments Exhausted {A}.
Arguments Returned {A} a.
Arguments OutOfFuel {A}.

Declare Scope py_scope.
Delimit Scope py_scope with py.
Notation "x <- m ;; k" := (bind m (fun x => k))
  (at level 61, m at next level, right associativity) : py_scope.
Notation "m ;; k" := (bind m (fun _ => k))
  (at level 61, right associativity) : py_scope.
Open Scope py_scope.

(** ** Python built-ins used by the code *)

(** [x in s] for a list or set of strings *)
Definition mem (x : string) (s : list string) : bool :=
  existsb (String.eqb x) s.

(** [c.lower()] on one character of the ASCII range *)
Definition lower_ascii (c : ascii) : ascii :=
  let n := nat_of_ascii c in
  if ((65 <=? n) && (n <=? 90))%nat then ascii_of_nat (n + 32) else c.

(** [s.lower()] *)
Fixpoint lower (s : string) : string :=
  match s with
  | EmptyString => EmptyString
  | String c s' => String (lower_ascii c) (lower s')
  end.

(** [sub in s] for strings *)
Fixpoint contains (sub s : string) : bool :=
  prefix sub s ||
  match s with
  | EmptyString => false
  | String _ s' => contains sub s'
  end.

(** [s.startswith(p)] *)
Definition startswith (s p : string) : bool := prefix p s.

(** [str(n)] for a non-negative integer *)
Definition str_of_N (n : N) : string :=
  DecimalString.NilZero.string_of_uint (N.to_uint n).

Definition str_of_nat (n : nat) : string := str_of_N (N.of_nat n).

(** ** [ipaddress]: IPv4 networks *)

Record IPv4Network : Type := mkNet {
  network_address : N;              (* the 32-bit address as an integer *)
  prefixlen : nat
}.

(** [str(net)], dotted quad and prefix length *)
Definition str_of_net (n : IPv4Network) : string :=
  let a := network_address n in
  (str_of_N (a / 16777216) ++ "." ++
   str_of_N ((a / 65536) mod 256) ++ "." ++
   str_of_N ((a / 256) mod 256) ++ "." ++
   str_of_N (a mod 256) ++ "/" ++ str_of_nat (prefixlen n))%string%N.

(** [list(net.subnets(new_prefix=24))]: the /24 blocks of [net] in address
    order; [None] stands for the [ValueError] raised when [net] is itself
    smaller than a /24. *)
Definition subnets24 (net : IPv4Network) : option (list IPv4Network) :=
  if (prefixlen net <=? 24)%nat then
    Some (map (fun k => mkNet (network_address net + 256 * N.of_nat k)%N 24)
              (seq 0 (2 ^ (24 - prefixlen net))))
  else None.

(** * installer.py *)

Section Installer.

Context {rem : Remote}.

(** [_safe_create] (lines 56-64) *)
Definition _safe_create {A} (create_fn : M A) (already_code : string)
    (label : string) : M (option A) :=
  try_except
    (a <- create_fn ;; ret (Some a))
    (fun exc =>
       match exc with
       | ClientError code =>
           if String.eqb code already_code then
             Some (logger WARNING (AlreadyExists label) ;; ret None)
           else None                                     (* raise *)
       | _ => None
       end).

(** One turn of the loop of [_wait_nat] (lines 85-90): [inr tt] is the
    [return] of the function. *)
Definition _wait_nat_poll (nat_id : string) : M (unit + unit) :=
  nats <- call (DescribeNatGateways [nat_id]) ;;
  n <- subscript0 nats ;;
  if String.eqb (NatGateway_State n) "available" then
    ret (inr tt)                                         (* return *)
  else
    time_sleep 10 ;; ret (inl tt).

(** [_wait_nat] (lines 83-91) *)
Definition _wait_nat (nat_id : string) : M unit :=
  r <- for_each (seq 0 60) (fun _ (_ : unit) => _wait_nat_poll nat_id) tt ;;
  match r with
  | inr _ => ret tt
  | inl _ => raise (RuntimeError nat_id)
  end.

(** One turn of the loop of [_wait_subnet] (lines 97-100): [Some tt] is
    the [return] of the function. *)
Definition _wait_subnet_poll (subnet_id : string) : M (option unit) :=
  subs <- call (DescribeSubnets (BySubnetIds [subnet_id])) ;;
  s <- subscript0 subs ;;
  if String.eqb (Subnet_State s) "available" then
    ret (Some tt)                                        (* return *)
  else
    time_sleep 5 ;; ret None.

(** The loop of [_wait_subnet] (lines 96-100), unrolled at most [fuel]
    times. *)
Definition _wait_subnet_loop (fuel : nat) (subnet_id : string)
    (t0 timeout : nat) : M (LoopExit unit) :=
  while_do fuel
    (now <- time_time ;; ret (now - t0 <? timeout)%nat)
    (_wait_subnet_poll subnet_id).

(** [_wait_subnet] (lines 94-101).  Every turn of the loop sleeps five
    seconds, so [timeout] turns are never all used; [OutOfFuel] is an
    answer of the model only, and is shown not to occur.  [Exhausted] is
    the function falling off its end, that is, returning [None]. *)
Definition _wait_subnet (subnet_id : string) (timeout : nat)
  : M (LoopExit unit) :=
  t0 <- time_time ;;
  _wait_subnet_loop (S timeout) subnet_id t0 timeout.

(** The [Name] tag read by [_classify_subnets] (lines 106-109): the last
    tag with key [Name] wins, the empty string when there is none. *)
Definition name_tag (s : Subnet) : string :=
  fold_left (fun name t => if String.eqb (Key t) "Name" then Value t else name)
            (Subnet_Tags s) "".

(** [r.get("GatewayId", "").startswith("igw-")] *)
Definition via_igw (r : Route) : bool :=
  startswith (match GatewayId r with Some g => g | None => "" end) "igw-".

(** One turn of the loop of [_classify_subnets] (lines 106-125), with the
    lists [pub] and [priv] as it finds and leaves them. *)
Definition _classify_subnets_turn (s : Subnet)
    (lists : list string * list string) : M (list string * list string) :=
  let '(pub, priv) := lists in
  let name := name_tag s in
  if contains "public" (lower name) then
    ret (pub ++ [SubnetId s], priv)
  else if contains "private" (lower name) then
    ret (pub, priv ++ [SubnetId s])
  else
    try_except
      (rts <- call (DescribeRouteTables
                      [("association.subnet-id", [SubnetId s])]) ;;
       let is_pub := existsb via_igw (flat_map Routes rts) in
       ret (if is_pub then (pub ++ [SubnetId s], priv)
            else (pub, priv ++ [SubnetId s])))
      (fun _ => Some (ret (pub, priv ++ [SubnetId s]))).

(** [_classify_subnets] (lines 103-126); the answer is the pair
    [(pub, priv)] of the dictionary it returns. *)
Definition _classify_subnets (subnets : list Subnet)
  : M (list string * list string) :=
  for_all subnets _classify_subnets_turn ([], []).

(** [_get_or_create_sg] (lines 137-156) *)
Definition _get_or_create_sg (vpc_id name desc : string) : M string :=
  resp <- call (DescribeSecurityGroups
                  [("group-name", [name]); ("vpc-id", [vpc_id])]) ;;
  match resp with
  | sg :: _ =>
      let sg_id := GroupId sg in
      logger INFO (SgReused name sg_id) ;;
      ret sg_id
  | [] =>
      sg_id <- call (CreateSecurityGroup name desc vpc_id) ;;
      logger INFO (SgCreated name sg_id) ;;
      ret sg_id
  end.

(** [Installer._ensure_bedrock_endpoint] (lines 707-726); [region] is
    [self.region]. *)
Definition _ensure_bedrock_endpoint (region : string) (vpc_id : string)
    (private_subnets : list string) (sg_id : string) : M string :=
  let svc := ("com.amazonaws." ++ region ++ ".bedrock-runtime")%string in
  eps <- call (DescribeVpcEndpoints
                 [("vpc-id", [vpc_id]); ("service-name", [svc])]) ;;
  match eps with
  | ep :: _ =>
      let eid := VpcEndpointId ep in
      logger INFO (EndpointReused eid) ;;
      ret eid
  | [] =>
      eid <- call (CreateVpcEndpoint vpc_id svc private_subnets [sg_id]) ;;
      logger INFO (EndpointCreated eid) ;;
      ret eid
  end.

(** [Installer._pick_cidr] (lines 483-493); [all_sn] holds the [str] of
    every sub-range, [existing] is the set of ranges in use. *)
Definition _pick_cidr (all_sn : list string) (existing : list string)
    (preferred_idx : nat) : option string :=
  let preferred :=
    if (preferred_idx <? List.length all_sn)%nat then
      match nth_error all_sn preferred_idx with
      | Some c => if negb (mem c existing) then Some c else None
      | None => None
      end
    else None in
  match preferred with
  | Some c => Some c
  | None => find (fun c => negb (mem c existing)) all_sn
  end.

(** The [except ClientError] clause of [_create_subnets] (lines 475-480):
    a range collision is logged and the loop goes on with the local
    variables [st]; any other error is raised again. *)
Definition on_range_collision {S} (sn_cidr : string) (st : S)
  : exn -> option (M S) :=
  fun exc =>
    match exc with
    | ClientError code =>
        if mem code ["InvalidSubnet.Overlap"; "InvalidSubnet.Range"] then
          Some (logger WARNING (CidrCollision sn_cidr) ;; ret st)
        else None                                        (* raise *)
    | _ => None
    end.

(** The [create_subnet] request of turn [i] for the range [sn_cidr] (lines
    443 and 449-459): the zone is taken round-robin and the subnet is
    tagged with its name. *)
Definition create_subnet_request (project vpc_id : string)
    (az_names : list string) (tag_prefix : string) (i : nat)
    (sn_cidr : string) : ApiCall :=
  CreateSubnet vpc_id sn_cidr
    (nth (i mod List.length az_names) az_names "")
    (tag_prefix ++ "-subnet-" ++ project ++ "-" ++ str_of_nat (i + 1))%string.

(** One turn of the loop of [Installer._create_subnets] (lines 443-480),
    for the index [i], with the local variables [result] and
    [existing_cidrs] as it finds and leaves them.  The set
    [existing_cidrs] is updated in place; the [try] block is written in two
    parts, one on each side of [existing_cidrs.add], because that update
    survives an exception raised later in the block; both parts have the
    same [except] clause. *)
Definition _create_subnets_turn (project vpc_id : string)
    (az_names : list string) (all_sn : list string) (offset : nat)
    (tag_prefix : string) (map_public : bool) (route_table_id : option string)
    (i : nat) (locals : list string * list string)
  : M (list string * list string) :=
  let '(result, existing_cidrs) := locals in
  match az_names with
  | [] => raise ZeroDivisionError
  | _ :: _ =>
    let az := nth (i mod List.length az_names) az_names "" in
    match _pick_cidr all_sn existing_cidrs (offset + i) with
    | None =>
        logger WARNING (NoFreeCidr az) ;;
        ret (result, existing_cidrs)                     (* continue *)
    | Some sn_cidr =>
        sub <- try_except
                 (sid <- call (create_subnet_request project vpc_id az_names
                                 tag_prefix i sn_cidr) ;;
                  ret (Some sid))
                 (on_range_collision sn_cidr None) ;;
        match sub with
        | None => ret (result, existing_cidrs)
        | Some sid =>
            let existing_cidrs := sn_cidr :: existing_cidrs in
            try_except
              (_wait_subnet sid 120 ;;
               logger INFO (SubnetCreated sid az sn_cidr) ;;
               (if map_public then call (ModifySubnetAttribute sid)
                else ret tt) ;;
               match route_table_id with
               | Some rt =>
                   if String.eqb rt "" then ret tt
                   else try_except (call (AssociateRouteTable rt sid))
                          (fun exc => if is_ClientError exc
                                      then Some (ret tt) else None)
               | None => ret tt
               end ;;
               ret (result ++ [sid], existing_cidrs))
              (on_range_collision sn_cidr (result, existing_cidrs))
        end
    end
  end.

(** The sub-ranges [_create_subnets] chooses from (lines 438-439):
    [str] of every /24 block of the VPC range. *)
Definition all_subranges (net : IPv4Network) : option (list string) :=
  option_map (map str_of_net) (subnets24 net).

(** [Installer._create_subnets] (lines 426-481).  [net] is
    [ipaddress.ip_network(vpc_cidr)] and [project] is [self.project].  The
    answer is the pair of [result] and of the set [existing_cidrs] as the
    caller finds it afterwards. *)
Definition _create_subnets (project vpc_id : string) (az_names : list string)
    (net : IPv4Network) (existing_cidrs : list string) (offset : nat)
    (tag_prefix : string) (count : nat) (map_public : bool)
    (route_table_id : option string) : M (list string * list string) :=
  match all_subranges net with
  | None => raise ValueError
  | Some all_sn =>
      for_all (seq 0 count)
        (_create_subnets_turn project vpc_id az_names all_sn offset
           tag_prefix map_public route_table_id)
        ([], existing_cidrs)
  end.

(** The [except ClientError] clause of the two creation calls of
    [_ensure_iam] (lines 650-653 and 671-674). *)
Definition unless_entity_exists (reused : M unit) : exn -> option (M unit) :=
  fun exc =>
    match exc with
    | ClientError code =>
        if String.eqb code "EntityAlreadyExists" then Some reused
        else None                                        (* raise *)
    | _ => None
    end.

(** One turn of the propagation wait of [_ensure_iam] (lines 693-700);
    [inr tt] is the [break]. *)
Definition _ensure_iam_propagation_poll (role_name profile_name : string)
    (attempt : nat) : M (unit + unit) :=
  broke <- try_except
             (resp <- call (GetInstanceProfile profile_name) ;;
              let roles := Roles resp in
              if (5 <=? attempt)%nat
                 && existsb (fun r => String.eqb (RoleName r) role_name) roles
              then ret true                              (* break *)
              else ret false)
             (fun exc => if is_ClientError exc
                         then Some (ret false) else None) ;;
  if broke : bool then ret (inr tt)
  else time_sleep 2 ;; ret (inl tt).

(** The propagation wait that ends [_ensure_iam] (lines 690-700): [inr tt]
    when the loop was left by [break], [inl tt] when it ran to its end. *)
Definition _ensure_iam_propagation_wait (role_name profile_name : string)
  : M (unit + unit) :=
  for_each (seq 0 20) (fun attempt (_ : unit) =>
    _ensure_iam_propagation_poll role_name profile_name attempt) tt.

(** The creation of the role in [_ensure_iam] (lines 643-653) *)
Definition _ensure_iam_create_role (role_name : string) : M unit :=
  try_except
    (call (CreateRole role_name) ;;
     logger INFO (RoleCreated role_name))
    (unless_entity_exists (logger INFO (RoleReused role_name))).

(** The creation of the instance profile in [_ensure_iam] (lines 668-674) *)
Definition _ensure_iam_create_profile (profile_name : string) : M unit :=
  try_except
    (call (CreateInstanceProfile profile_name) ;;
     logger INFO (ProfileCreated profile_name))
    (unless_entity_exists (logger INFO (ProfileReused profile_name))).

(** The attachment of the role to the profile in [_ensure_iam] (lines
    676-688); the answer is [profile_arn].  [existing_roles] is a Python
    set: its elements are taken here without repetition, in the order
    [nodup] leaves them. *)
Definition _ensure_iam_attach_role (role_name profile_name : string)
  : M string :=
  time_sleep 2 ;;
  profile <- call (GetInstanceProfile profile_name) ;;
  let profile_arn := Arn profile in
  let existing_roles := nodup string_dec (map RoleName (Roles profile)) in
  (if negb (mem role_name existing_roles) then
     for_all existing_roles (fun old_role (_ : unit) =>
       logger INFO (OldRoleRemoved old_role profile_name) ;;
       call (RemoveRoleFromInstanceProfile profile_name old_role)) tt ;;
     call (AddRoleToInstanceProfile profile_name role_name)
   else ret tt) ;;
  ret profile_arn.

(** [Installer._ensure_iam] (lines 616-702); [project] is [self.project]. *)
Definition _ensure_iam (project : string) : M (string * string * string) :=
  let role_name := (project ++ "-bedrock-role")%string in
  let profile_name := (project ++ "-bedrock-profile")%string in
  _ensure_iam_create_role role_name ;;
  call (UpdateAssumeRolePolicy role_name) ;;
  call (PutRolePolicy role_name "BedrockAccess") ;;
  try_except
    (call (AttachRolePolicy role_name
             "arn:aws:iam::aws:policy/AmazonSSMManagedInstanceCore"))
    (fun exc => if is_ClientError exc then Some (ret tt) else None) ;;
  _ensure_iam_create_profile profile_name ;;
  profile_arn <- _ensure_iam_attach_role role_name profile_name ;;
  logger INFO ProfilePropagationWait ;;
  _ensure_iam_propagation_wait role_name profile_name ;;
  ret (role_name, profile_name, profile_arn).

End Installer.

(** * uninstaller.py *)

Section Uninstaller.

Context {rem : Remote}.

(** [Uninstaller._next_step] (lines 51-53); the step counter only numbers
    the log line and is left out. *)
Definition _next_step (desc : string) : M unit :=
  logger INFO (NextStep desc).

(** The lookup of the load balancer in [delete_alb_and_target_group]
    (lines 157-164); the answer is [alb_arn]. *)
Definition find_alb (alb_name : string) : M (option string) :=
  try_except
    (resp <- call (DescribeLoadBalancers [alb_name]) ;;
     match resp with
     | lb :: _ => ret (Some (LoadBalancerArn lb))
     | [] => ret None
     end)
    (fun exc =>
       match exc with
       | ClientError code =>
           Some (if negb (String.eqb code "LoadBalancerNotFound")
                 then logger WARNING (AlbLookupFailed code) ;; ret None
                 else ret None)
       | _ => None
       end).

(** The deletion of the listeners (lines 167-173) *)
Definition delete_listeners (alb_arn : string) : M unit :=
  try_except
    (listeners <- call (DescribeListeners alb_arn) ;;
     for_all listeners (fun listener (_ : unit) =>
       call (DeleteListener (ListenerArn listener)) ;;
       logger INFO (ListenerDeleted (ListenerArn listener))) tt)
    (fun exc =>
       match exc with
       | ClientError code => Some (logger WARNING (ListenerDeleteWarning code))
       | _ => None
       end).

(** The deletion of the load balancer and the wait for it (lines 175-183) *)
Definition delete_alb_and_wait (alb_name alb_arn : string) : M unit :=
  try_except
    (call (DeleteLoadBalancer alb_arn) ;;
     logger INFO (AlbDeleteRequested alb_name) ;;
     wait_for (WaitLoadBalancersDeleted alb_arn 15 40))
    (fun exc =>
       match exc with
       | ClientError code => Some (logger WARNING (AlbDeleteFailed code))
       | _ => Some (logger WARNING AlbDeleteWaitWarning)
       end).

(** The deletion of the target group (lines 187-194) *)
Definition delete_target_groups (tg_name : string) : M unit :=
  try_except
    (tgs <- call (DescribeTargetGroups [tg_name]) ;;
     for_all tgs (fun tg (_ : unit) =>
       call (DeleteTargetGroup (TargetGroupArn tg)) ;;
       logger INFO (TargetGroupDeleted (TargetGroupName tg))) tt)
    (fun exc =>
       match exc with
       | ClientError code =>
           Some (if negb (mem code ["TargetGroupNotFound"; "ResourceInUse"])
                 then logger WARNING (TargetGroupDeleteFailed code)
                 else ret tt)
       | _ => None
       end).

(** [Uninstaller.delete_alb_and_target_group] (lines 152-194); [project]
    is [self.project].  [if alb_arn:] holds for a string that is not
    empty. *)
Definition delete_alb_and_target_group (project : string) : M unit :=
  _next_step "ALB / Target Group" ;;
  let alb_name := substring 0 32 ("alb-" ++ project)%string in
  let tg_name := substring 0 32 ("tg-" ++ project)%string in
  alb_arn <- find_alb alb_name ;;
  match alb_arn with
  | Some (String _ _ as alb_arn) =>
      delete_listeners alb_arn ;;
      delete_alb_and_wait alb_name alb_arn
  | _ => logger INFO NoAlb
  end ;;
  delete_target_groups tg_name.

(** The deletions of one round of [_delete_subnets_with_retry] (lines
    412-420): a delete call per listed subnet; the answer is [blocked]. *)
Definition delete_subnets_sweep (subs : list Subnet) : M nat :=
  for_all subs (fun subnet blocked =>
    let subnet_id := SubnetId subnet in
    try_except
      (call (DeleteSubnet subnet_id) ;;
       logger INFO (SubnetDeleted subnet_id) ;;
       ret blocked)
      (fun exc =>
         match exc with
         | ClientError code =>
             Some (logger INFO (SubnetDeleteDeferred subnet_id code) ;;
                   ret (blocked + 1))
         | _ => None
         end)) 0.

(** One round of [_delete_subnets_with_retry] (lines 407-424): [inr tt]
    is the [return] of the function, [inl tt] goes on with the next
    round. *)
Definition _delete_subnets_round (vpc_id : string) (max_rounds wait_sec : nat)
    (round_idx : nat) (_ : unit) : M (unit + unit) :=
  subs <- call (DescribeSubnets (ByFilters [("vpc-id", [vpc_id])])) ;;
  match subs with
  | [] => ret (inr tt)                                   (* return *)
  | _ :: _ =>
      blocked <- delete_subnets_sweep subs ;;
      if (blocked =? 0)%nat then ret (inr tt)            (* return *)
      else
        (if (round_idx <? max_rounds - 1)%nat then time_sleep wait_sec
         else ret tt) ;;
        ret (inl tt)
  end.

(** [Uninstaller._delete_subnets_with_retry] (lines 405-424) *)
Definition _delete_subnets_with_retry (vpc_id : string)
    (max_rounds wait_sec : nat) : M unit :=
  for_each (seq 0 max_rounds)
    (_delete_subnets_round vpc_id max_rounds wait_sec) tt ;;
  ret tt.

(** The egress rules that are revoked (lines 446-453): all but the default
    rule that allows every outbound connection. *)
Definition revocable_egress (sg : SecurityGroup) : list IpPermission :=
  filter (fun r =>
            negb (String.eqb (IpProtocol r) "-1"
                  && (List.length (IpRanges r) =? 1)%nat
                  && String.eqb (nth 0 (IpRanges r) "") "0.0.0.0/0"))
         (IpPermissionsEgress sg).

Definition swallow_ClientError : exn -> option (M unit) :=
  fun exc => if is_ClientError exc then Some (ret tt) else None.

(** [sg.get("GroupName") != "default"] *)
Definition is_custom_sg (sg : SecurityGroup) : bool :=
  negb (String.eqb (GroupName sg) "default").

(** The deletions of one round of [_delete_security_groups_with_retry]
    (lines 434-463): for each group its rules are revoked, then the group
    is deleted; the answer is [blocked]. *)
Definition delete_security_groups_sweep (custom_sgs : list SecurityGroup)
  : M nat :=
  for_all custom_sgs (fun sg blocked =>
    let sg_id := GroupId sg in
    try_except
      (match IpPermissions sg with
       | [] => ret tt
       | _ :: _ => call (RevokeSecurityGroupIngress sg_id (IpPermissions sg))
       end)
      swallow_ClientError ;;
    try_except
      (let egress := revocable_egress sg in
       match egress with
       | [] => ret tt
       | _ :: _ => call (RevokeSecurityGroupEgress sg_id egress)
       end)
      swallow_ClientError ;;
    try_except
      (call (DeleteSecurityGroup sg_id) ;;
       logger INFO (SgDeleted sg_id) ;;
       ret blocked)
      (fun exc =>
         match exc with
         | ClientError code =>
             Some (logger INFO (SgDeleteDeferred sg_id code) ;;
                   ret (blocked + 1))
         | _ => None
         end)) 0.

(** One round of [_delete_security_groups_with_retry] (lines 428-467) *)
Definition _delete_security_groups_round (vpc_id : string)
    (max_rounds wait_sec : nat) (round_idx : nat) (_ : unit)
  : M (unit + unit) :=
  sgs <- call (DescribeSecurityGroups [("vpc-id", [vpc_id])]) ;;
  match filter is_custom_sg sgs with
  | [] => ret (inr tt)                                   (* return *)
  | _ :: _ =>
      blocked <- delete_security_groups_sweep (filter is_custom_sg sgs) ;;
      if (blocked =? 0)%nat then ret (inr tt)            (* return *)
      else
        (if (round_idx <? max_rounds - 1)%nat then time_sleep wait_sec
         else ret tt) ;;
        ret (inl tt)
  end.

(** [Uninstaller._delete_security_groups_with_retry] (lines 426-467) *)
Definition _delete_security_groups_with_retry (vpc_id : string)
    (max_rounds wait_sec : nat) : M unit :=
  for_each (seq 0 max_rounds)
    (_delete_security_groups_round vpc_id max_rounds wait_sec) tt ;;
  ret tt.

(** [ep.get("State") not in ("deleted", "failed")] *)
Definition is_alive_endpoint (ep : VpcEndpoint) : bool :=
  negb (mem (VpcEndpoint_State ep) ["deleted"; "failed"]).

(** [logger.warning] of a list of identifiers, when there is any *)
Definition warn_remaining (m : list string -> Msg) (ids : list string)
  : M unit :=
  match ids with
  | [] => ret tt
  | _ :: _ => logger WARNING (m ids)
  end.

(** [Uninstaller._log_remaining_vpc_dependencies] (lines 469-497) *)
Definition _log_remaining_vpc_dependencies (vpc_id : string) : M unit :=
  try_except
    (subs <- call (DescribeSubnets (ByFilters [("vpc-id", [vpc_id])])) ;;
     warn_remaining RemainingSubnets (map SubnetId subs) ;;
     sgs <- call (DescribeSecurityGroups [("vpc-id", [vpc_id])]) ;;
     let custom_sgs := map GroupId (filter is_custom_sg sgs) in
     warn_remaining RemainingSecurityGroups custom_sgs ;;
     enis <- call (DescribeNetworkInterfaces [("vpc-id", [vpc_id])]) ;;
     warn_remaining RemainingNetworkInterfaces (map NetworkInterfaceId enis) ;;
     eps <- call (DescribeVpcEndpoints [("vpc-id", [vpc_id])]) ;;
     let alive_eps := map VpcEndpointId (filter is_alive_endpoint eps) in
     warn_remaining RemainingVpcEndpoints alive_eps)
    (fun exc =>
       match exc with
       | ClientError code => Some (logger WARNING (DependencyLookupFailed code))
       | _ => None
       end).

(** The last step of [Uninstaller._delete_single_vpc] (step 9, lines
    358-377): the deletion of the VPC itself, after every resource inside
    it has been dealt with. *)
Definition _delete_single_vpc_step9 (vpc_id : string) : M unit :=
  for_each (seq 0 5) (fun attempt (_ : unit) =>
    try_except
      (call (DeleteVpc vpc_id) ;;
       logger INFO (VpcDeleted vpc_id) ;;
       ret (inr tt))                                     (* return *)
      (fun exc =>
         match exc with
         | ClientError code =>
             Some (
               if String.eqb code "InvalidVpcID.NotFound" then
                 logger INFO (VpcAlreadyDeleted vpc_id) ;;
                 ret (inr tt)                            (* return *)
               else if String.eqb code "DependencyViolation"
                       && (attempt <? 4)%nat then
                 let wait_sec := 15 * (attempt + 1) in
                 _log_remaining_vpc_dependencies vpc_id ;;
                 logger INFO (VpcRetryAfter wait_sec vpc_id) ;;
                 time_sleep wait_sec ;;
                 ret (inl tt)                            (* continue *)
               else
                 _log_remaining_vpc_dependencies vpc_id ;;
                 logger WARNING (VpcDeleteFailed vpc_id code) ;;
                 ret (inr tt))                           (* return *)
         | _ => None
         end)) tt ;;
  ret tt.

End Uninstaller.

(** * Remote accounts used to run the code on concrete inputs *)

(** The answer of a remote to a request it does not implement. *)
Definition unsupported {A S : Type} (s : S) : ApiResult A * S :=
  (ApiErr "Unsupported", s).

Definition start {rem : Remote} (r : RemoteState) : World := mkWorld r 0.

(** A remote that refuses the first [create_subnet] with a range collision
    and accepts the later ones; its state counts the requests.  Subnets
    are available at once. *)
Definition collide_once : Remote := {|
  RemoteState := nat;
  api := fun c =>
    match c return nat -> ApiResult (Resp c) * nat with
    | CreateSubnet _ cidr _ _ => fun n =>
        if (n =? 0)%nat then (ApiErr "InvalidSubnet.Overlap", S n)
        else (ApiOk ("subnet-" ++ cidr)%string, S n)
    | DescribeSubnets (BySubnetIds ids) => fun n =>
        (ApiOk (map (fun i => mkSubnet i [] "available" "") ids), n)
    | ModifySubnetAttribute _ => fun n => (ApiOk tt, n)
    | AssociateRouteTable _ _ => fun n => (ApiOk tt, n)
    | _ => fun n => unsupported n
    end;
  elapse := fun _ n => n;
  latency := fun _ _ => 0
|}.

(** 10.20.0.0/16, the first candidate range of [_get_available_cidr]. *)
Definition net_10_20 : IPv4Network := mkNet 169082880 16.

(** ** Counting what a run did *)

Definition count {A : Type} (p : A -> bool) (l : list A) : nat :=
  List.length (filter p l).

Definition creates_sg (e : Event) : bool :=
  match e with Call (CreateSecurityGroup _ _ _) => true | _ => false end.

Definition creates_endpoint (e : Event) : bool :=
  match e with Call (CreateVpcEndpoint _ _ _ _) => true | _ => false end.

(** The lookup of [_get_or_create_sg] and of [_ensure_bedrock_endpoint]. *)
Definition sg_lookup (vpc_id name : string) : ApiCall :=
  DescribeSecurityGroups [("group-name", [name]); ("vpc-id", [vpc_id])].

Definition bedrock_service (region : string) : string :=
  ("com.amazonaws." ++ region ++ ".bedrock-runtime")%string.

Definition endpoint_lookup (region vpc_id : string) : ApiCall :=
  DescribeVpcEndpoints
    [("vpc-id", [vpc_id]); ("service-name", [bedrock_service region])].

(** A remote with consistent lookups: a resource that was just created is
    the first answer of the lookup that had found nothing before. *)
Definition reads_own_writes (rem : Remote) : Prop :=
  (forall (s : RemoteState) (vpc_id name desc sg_id : string),
     let create := CreateSecurityGroup name desc vpc_id in
     fst (api (sg_lookup vpc_id name) s) = ApiOk [] ->
     fst (api create s) = ApiOk sg_id ->
     exists sg rest,
       fst (api (sg_lookup vpc_id name) (snd (api create s))) = ApiOk (sg :: rest)
       /\ GroupId sg = sg_id)
  /\
  (forall (s : RemoteState) (region vpc_id : string)
          (subnets groups : list string) (eid : string),
     let create := CreateVpcEndpoint vpc_id (bedrock_service region)
                     subnets groups in
     fst (api (endpoint_lookup region vpc_id) s) = ApiOk [] ->
     fst (api create s) = ApiOk eid ->
     exists ep rest,
       fst (api (endpoint_lookup region vpc_id) (snd (api create s)))
         = ApiOk (ep :: rest)
       /\ VpcEndpointId ep = eid).

(** ** An in-memory account with security groups and endpoints *)

(** Does a resource whose attribute [key] is [value] pass [filters]? *)
Definition passes (filters : list Filter) (key value : string) : bool :=
  forallb (fun f => if String.eqb (fst f) key then mem value (snd f) else true)
          filters.

Record Account : Type := mkAccount {
  acc_security_groups : list (SecurityGroup * string);      (* group, VPC *)
  acc_endpoints : list (VpcEndpoint * string * string);     (* endpoint, VPC, service *)
  acc_serial : nat                                          (* for fresh identifiers *)
}.

Definition sg_passes (filters : list Filter) (g : SecurityGroup * string) : bool :=
  passes filters "group-name" (GroupName (fst g)) &&
  passes filters "vpc-id" (snd g).

Definition endpoint_passes (filters : list Filter)
    (e : VpcEndpoint * string * string) : bool :=
  passes filters "vpc-id" (snd (fst e)) &&
  passes filters "service-name" (snd e).

Definition account_api (c : ApiCall) : Account -> ApiResult (Resp c) * Account :=
  match c return Account -> ApiResult (Resp c) * Account with
  | DescribeSecurityGroups filters => fun a =>
      (ApiOk (map fst (filter (sg_passes filters) (acc_security_groups a))), a)
  | CreateSecurityGroup name _ vpc_id => fun a =>
      if existsb (fun g => String.eqb (GroupName (fst g)) name
                           && String.eqb (snd g) vpc_id)
                 (acc_security_groups a)
      then (ApiErr "InvalidGroup.Duplicate", a)
      else
        let sg_id := ("sg-" ++ str_of_nat (acc_serial a))%string in
        (ApiOk sg_id,
         mkAccount (acc_security_groups a ++ [(mkSecurityGroup sg_id name [] [], vpc_id)])
                   (acc_endpoints a) (S (acc_serial a)))
  | DescribeVpcEndpoints filters => fun a =>
      (ApiOk (map (fun e => fst (fst e))
                  (filter (endpoint_passes filters) (acc_endpoints a))), a)
  | CreateVpcEndpoint vpc_id service _ _ => fun a =>
      let eid := ("vpce-" ++ str_of_nat (acc_serial a))%string in
      (ApiOk eid,
       mkAccount (acc_security_groups a)
                 (acc_endpoints a ++ [(mkVpcEndpoint eid "pending", vpc_id, service)])
                 (S (acc_serial a)))
  | _ => fun a => unsupported a
  end.

Definition account : Remote := {|
  RemoteState := Account;
  api := account_api;
  elapse := fun _ a => a;
  latency := fun _ _ => 1
|}.

Definition empty_account : Account := mkAccount [] [] 0.

(** ** Waiting *)

Definition polls_nat_gateway (e : Event) : bool :=
  match e with Call (DescribeNatGateways _) => true | _ => false end.

Definition polls_subnet (e : Event) : bool :=
  match e with Call (DescribeSubnets (BySubnetIds _)) => true | _ => false end.

Definition is_sleep (e : Event) : bool :=
  match e with Sleep _ => true | _ => false end.

Definition is_log (e : Event) : bool :=
  match e with Log _ _ => true | _ => false end.

(** The NAT gateway is reported in every poll, [step] seconds apart, and
    never as available. *)
Definition nat_never_available {rem : Remote} (nat_id : string) (step : nat)
    (s : RemoteState) : Prop :=
  forall k, exists n rest,
    fst (api (DescribeNatGateways [nat_id]) (Nat.iter k (elapse step) s))
      = ApiOk (n :: rest) /\
    String.eqb (NatGateway_State n) "available" = false.

(** The same for a subnet. *)
Definition subnet_never_available {rem : Remote} (subnet_id : string)
    (step : nat) (s : RemoteState) : Prop :=
  forall k, exists sn rest,
    fst (api (DescribeSubnets (BySubnetIds [subnet_id]))
             (Nat.iter k (elapse step) s))
      = ApiOk (sn :: rest) /\
    String.eqb (Subnet_State sn) "available" = false.

(** A remote on which nothing ever leaves the pending state; requests take
    no time. *)
Definition always_pending : Remote := {|
  RemoteState := unit;
  api := fun c =>
    match c return unit -> ApiResult (Resp c) * unit with
    | DescribeNatGateways ids => fun s =>
        (ApiOk (map (fun i => mkNatGateway i "pending") ids), s)
    | DescribeSubnets (BySubnetIds ids) => fun s =>
        (ApiOk (map (fun i => mkSubnet i [] "pending" "") ids), s)
    | _ => fun s => unsupported s
    end;
  elapse := fun _ s => s;
  latency := fun _ _ => 0
|}.

(** ** Races *)

Definition looks_up_sg (e : Event) : bool :=
  match e with Call (DescribeSecurityGroups _) => true | _ => false end.

(** A remote on which a concurrent creator wins the race: the lookup finds
    nothing at first, the creation is refused as a duplicate, and from then
    on the lookup finds the group of the other creator.  The state says
    whether that group is visible. *)
Definition racing : Remote := {|
  RemoteState := bool;
  api := fun c =>
    match c return bool -> ApiResult (Resp c) * bool with
    | DescribeSecurityGroups _ => fun visible =>
        (ApiOk (if visible : bool
                then [mkSecurityGroup "sg-race" "openclaw-ec2-sg" [] []]
                else []), visible)
    | CreateSecurityGroup _ _ _ => fun _ =>
        (ApiErr "InvalidGroup.Duplicate", true)
    | _ => fun visible => unsupported visible
    end;
  elapse := fun _ visible => visible;
  latency := fun _ _ => 1
|}.

(** ** Identity *)

Definition polls_profile (e : Event) : bool :=
  match e with Call (GetInstanceProfile _) => true | _ => false end.

(** Does a read of the profile in the state [s] show the role attached? *)
Definition shows_role {rem : Remote} (role_name profile_name : string)
    (s : RemoteState) : bool :=
  match fst (api (GetInstanceProfile profile_name) s) with
  | ApiOk profile =>
      existsb (fun r => String.eqb (RoleName r) role_name) (Roles profile)
  | ApiErr _ => false
  end.

(** The log record and the request for each role that is taken off. *)
Definition removals (profile_name : string) (old_roles : list string)
  : list Event :=
  flat_map (fun old_role =>
              [Log INFO (OldRoleRemoved old_role profile_name);
               Call (RemoveRoleFromInstanceProfile profile_name old_role)])
           old_roles.

(** An in-memory IAM: the names of the roles, and the roles attached to
    each instance profile. *)
Record Iam : Type := mkIam {
  iam_roles : list string;
  iam_profiles : list (string * list string)
}.

Fixpoint attached (profile_name : string) (ps : list (string * list string))
  : option (list string) :=
  match ps with
  | [] => None
  | (p, rs) :: ps' =>
      if String.eqb p profile_name then Some rs else attached profile_name ps'
  end.

Fixpoint attach (profile_name : string) (rs : list string)
    (ps : list (string * list string)) : list (string * list string) :=
  match ps with
  | [] => []
  | (p, rs0) :: ps' =>
      if String.eqb p profile_name then (p, rs) :: ps'
      else (p, rs0) :: attach profile_name rs ps'
  end.

Definition profile_arn_of (profile_name : string) : string :=
  ("arn:aws:iam::123456789012:instance-profile/" ++ profile_name)%string.

Definition on_role {A} (role_name : string) (i : Iam) (ok : ApiResult A * Iam)
  : ApiResult A * Iam :=
  if mem role_name (iam_roles i) then ok else (ApiErr "NoSuchEntity", i).

Definition iam_api (c : ApiCall) : Iam -> ApiResult (Resp c) * Iam :=
  match c return Iam -> ApiResult (Resp c) * Iam with
  | CreateRole role_name => fun i =>
      if mem role_name (iam_roles i) then (ApiErr "EntityAlreadyExists", i)
      else (ApiOk tt, mkIam (role_name :: iam_roles i) (iam_profiles i))
  | UpdateAssumeRolePolicy role_name => fun i => on_role role_name i (ApiOk tt, i)
  | PutRolePolicy role_name _ => fun i => on_role role_name i (ApiOk tt, i)
  | AttachRolePolicy role_name _ => fun i => on_role role_name i (ApiOk tt, i)
  | CreateInstanceProfile profile_name => fun i =>
      match attached profile_name (iam_profiles i) with
      | Some _ => (ApiErr "EntityAlreadyExists", i)
      | None => (ApiOk tt, mkIam (iam_roles i) ((profile_name, []) :: iam_profiles i))
      end
  | GetInstanceProfile profile_name => fun i =>
      match attached profile_name (iam_profiles i) with
      | Some rs =>
          (ApiOk (mkInstanceProfile (profile_arn_of profile_name) (map mkRole rs)), i)
      | None => (ApiErr "NoSuchEntity", i)
      end
  | RemoveRoleFromInstanceProfile profile_name role_name => fun i =>
      match attached profile_name (iam_profiles i) with
      | Some rs =>
          if mem role_name rs then
            (ApiOk tt,
             mkIam (iam_roles i)
                   (attach profile_name (remove string_dec role_name rs)
                           (iam_profiles i)))
          else (ApiErr "NoSuchEntity", i)
      | None => (ApiErr "NoSuchEntity", i)
      end
  | AddRoleToInstanceProfile profile_name role_name => fun i =>
      on_role role_name i
        match attached profile_name (iam_profiles i) with
        | Some [] =>
            (ApiOk tt,
             mkIam (iam_roles i) (attach profile_name [role_name] (iam_profiles i)))
        | Some (_ :: _) => (ApiErr "LimitExceeded", i)
        | None => (ApiErr "NoSuchEntity", i)
        end
  | _ => fun i => unsupported i
  end.

Definition iam : Remote := {|
  RemoteState := Iam;
  api := iam_api;
  elapse := fun _ i => i;
  latency := fun _ _ => 1
|}.

(** An account whose profile still carries the role of an earlier
    deployment. *)
Definition iam_with_foreign_role : Iam :=
  mkIam ["legacy-role"] [("openclaw-bedrock-profile", ["legacy-role"])].

(** An account in which the role and the profile of the project exist and
    are attached. *)
Definition iam_converged : Iam :=
  mkIam ["openclaw-bedrock-role"]
        [("openclaw-bedrock-profile", ["openclaw-bedrock-role"])].

(** ** Runs that return *)

(** [m], started in [w], returns [a] in the world [w'] after the events
    [ev]. *)
Definition returns {rem : Remote} {A : Type} (m : M A) (w : World) (a : A)
    (w' : World) (ev : list Event) : Prop :=
  outcome (m w) = Ret a /\ final (m w) = w' /\ events (m w) = ev.

(** The requests that change the roles of an instance profile. *)
Definition changes_profile_roles (e : Event) : bool :=
  match e with
  | Call (RemoveRoleFromInstanceProfile _ _) => true
  | Call (AddRoleToInstanceProfile _ _) => true
  | _ => false
  end.

(** ** Tiers of the subnets of an existing VPC *)

Inductive Tier : Type := Public | Private.

Definition is_public (t : Tier) : bool :=
  match t with Public => true | Private => false end.

Definition is_private (t : Tier) : bool := negb (is_public t).

(** The lookup of the route tables associated with a subnet. *)
Definition route_lookup (s : Subnet) : ApiCall :=
  DescribeRouteTables [("association.subnet-id", [SubnetId s])].

(** The rule of the specification, in its words: the name tag first; then
    public when an associated route table has a default route to an
    internet gateway, private when not; private when the lookup fails. *)
Definition has_default_route_to_igw (rts : list RouteTable) : bool :=
  existsb (fun r =>
             match DestinationCidrBlock r with
             | Some d => String.eqb d "0.0.0.0/0"
             | None => false
             end && via_igw r)
          (flat_map Routes rts).

Definition tier_by_default_route {rem : Remote} (st : RemoteState) (s : Subnet)
  : Tier :=
  if contains "public" (lower (name_tag s)) then Public
  else if contains "private" (lower (name_tag s)) then Private
  else match fst (api (route_lookup s) st) with
       | ApiOk rts => if has_default_route_to_igw rts then Public else Private
       | ApiErr _ => Private
       end.

(** The rule as amended: any route through an internet gateway, whatever
    its destination, makes the subnet public. *)
Definition has_route_to_igw (rts : list RouteTable) : bool :=
  existsb via_igw (flat_map Routes rts).

Definition tier_by_any_route {rem : Remote} (st : RemoteState) (s : Subnet)
  : Tier :=
  if contains "public" (lower (name_tag s)) then Public
  else if contains "private" (lower (name_tag s)) then Private
  else match fst (api (route_lookup s) st) with
       | ApiOk rts => if has_route_to_igw rts then Public else Private
       | ApiErr _ => Private
       end.

(** The subnets of a tier, by their identifiers and in their order. *)
Definition of_tier (tier : Subnet -> Tier) (keep : Tier -> bool)
    (subnets : list Subnet) : list string :=
  map SubnetId (filter (fun s => keep (tier s)) subnets).

(** A remote whose route tables send one address block, not the default
    route, through an internet gateway; the lookup fails for the subnet
    [subnet-gone]. *)
Definition routed : Remote := {|
  RemoteState := unit;
  api := fun c =>
    match c return unit -> ApiResult (Resp c) * unit with
    | DescribeRouteTables filters => fun s =>
        if passes filters "association.subnet-id" "subnet-gone"
        then (ApiErr "InvalidSubnetID.NotFound", s)
        else
          (ApiOk [mkRouteTable "rtb-1"
                    [mkRoute (Some "10.20.0.0/16") (Some "local") None;
                     mkRoute (Some "203.0.113.0/24") (Some "igw-1") None]], s)
    | _ => fun s => unsupported s
    end;
  elapse := fun _ s => s;
  latency := fun _ _ => 0
|}.

Definition untagged_subnet : Subnet := mkSubnet "subnet-1" [] "available" "10.20.5.0/24".

Definition mixed_subnets : list Subnet :=
  [mkSubnet "subnet-a" [mkTag "Name" "Public-Subnet-1"] "available" "10.20.0.0/24";
   mkSubnet "subnet-b" [mkTag "Name" "private-subnet-openclaw-1"] "available" "10.20.10.0/24";
   untagged_subnet;
   mkSubnet "subnet-gone" [mkTag "Owner" "ops"] "available" "10.20.6.0/24"].

(** ** What a computation may do *)

(** Every event of every run of [m] satisfies [P]. *)
Definition emits {rem : Remote} {A : Type} (P : Event -> Prop) (m : M A)
  : Prop :=
  forall w, Forall P (events (m w)).

(** [m] raises nothing but what a client method raises. *)
Definition raises_only_ClientError {rem : Remote} {A : Type} (m : M A) : Prop :=
  forall w e, outcome (m w) = Raise e -> is_ClientError e = true.

(** [m] always returns. *)
Definition never_raises {rem : Remote} {A : Type} (m : M A) : Prop :=
  forall w, exists a, outcome (m w) = Ret a.

(** ** Dismantling the load balancer *)

(** The requests of the first phase: the lookup of the load balancer and
    the listeners. *)
Definition before_alb_deletion (e : Event) : Prop :=
  match e with
  | Call (DescribeLoadBalancers _) | Call (DescribeListeners _)
  | Call (DeleteListener _) | Log _ _ => True
  | _ => False
  end.

(** The requests of the last phase: the target group. *)
Definition after_alb_deletion (e : Event) : Prop :=
  match e with
  | Call (DescribeTargetGroups _) | Call (DeleteTargetGroup _) | Log _ _ => True
  | _ => False
  end.

(** What the deletion of the load balancer itself may look like: refused,
    or accepted and followed at once by the wait for it. *)
Definition alb_deletion (alb_name alb_arn : string) (ev : list Event) : Prop :=
  (exists code,
     ev = [Call (DeleteLoadBalancer alb_arn);
           Log WARNING (AlbDeleteFailed code)]) \/
  ev = [Call (DeleteLoadBalancer alb_arn);
        Log INFO (AlbDeleteRequested alb_name);
        Call (WaitLoadBalancersDeleted alb_arn 15 40)] \/
  ev = [Call (DeleteLoadBalancer alb_arn);
        Log INFO (AlbDeleteRequested alb_name);
        Call (WaitLoadBalancersDeleted alb_arn 15 40);
        Log WARNING AlbDeleteWaitWarning].

(** The request and the log record for each listener that is deleted. *)
Definition listener_deletions (listeners : list Listener) : list Event :=
  flat_map (fun l => [Call (DeleteListener (ListenerArn l));
                      Log INFO (ListenerDeleted (ListenerArn l))])
           listeners.

(** A remote on which every deletion of a listener is accepted. *)
Definition accepts_listener_deletions (rem : Remote) : Prop :=
  forall (s : RemoteState) (arn : string),
    fst (api (DeleteListener arn) s) = ApiOk tt.

(** An in-memory load balancer with its listeners and target group; the
    state says what is left.  The wait for the deletion succeeds. *)
Record Elb : Type := mkElb {
  elb_load_balancers : list (string * string);      (* name, ARN *)
  elb_listeners : list (string * string);           (* load balancer ARN, listener ARN *)
  elb_target_groups : list (string * string)        (* name, ARN *)
}.

Definition elb_api (c : ApiCall) : Elb -> ApiResult (Resp c) * Elb :=
  match c return Elb -> ApiResult (Resp c) * Elb with
  | DescribeLoadBalancers names => fun s =>
      match filter (fun lb => mem (fst lb) names) (elb_load_balancers s) with
      | [] => (ApiErr "LoadBalancerNotFound", s)
      | lbs => (ApiOk (map (fun lb => mkLoadBalancer (snd lb)) lbs), s)
      end
  | DescribeListeners arn => fun s =>
      (ApiOk (map (fun l => mkListener (snd l))
                  (filter (fun l => String.eqb (fst l) arn) (elb_listeners s))), s)
  | DeleteListener arn => fun s =>
      (ApiOk tt,
       mkElb (elb_load_balancers s)
             (filter (fun l => negb (String.eqb (snd l) arn)) (elb_listeners s))
             (elb_target_groups s))
  | DeleteLoadBalancer arn => fun s =>
      (ApiOk tt,
       mkElb (filter (fun lb => negb (String.eqb (snd lb) arn)) (elb_load_balancers s))
             (filter (fun l => negb (String.eqb (fst l) arn)) (elb_listeners s))
             (elb_target_groups s))
  | WaitLoadBalancersDeleted _ _ _ => fun s => (ApiOk tt, s)
  | DescribeTargetGroups names => fun s =>
      match filter (fun tg => mem (fst tg) names) (elb_target_groups s) with
      | [] => (ApiErr "TargetGroupNotFound", s)
      | tgs => (ApiOk (map (fun tg => mkTargetGroup (snd tg) (fst tg)) tgs), s)
      end
  | DeleteTargetGroup arn => fun s =>
      (ApiOk tt,
       mkElb (elb_load_balancers s) (elb_listeners s)
             (filter (fun tg => negb (String.eqb (snd tg) arn)) (elb_target_groups s)))
  | _ => fun s => unsupported s
  end.

Definition elb : Remote := {|
  RemoteState := Elb;
  api := elb_api;
  elapse := fun _ s => s;
  latency := fun _ _ => 1
|}.

Definition elb_deployed : Elb :=
  mkElb [("alb-openclaw", "arn:alb")]
        [("arn:alb", "arn:listener-80"); ("arn:alb", "arn:listener-443")]
        [("tg-openclaw", "arn:tg")].

(** ** Rounds of deletions *)

(** The shape the two retry loops of the teardown share: list what is
    left with the request [c], keep [post] of the answer, and sweep over
    it. *)
Definition retry_round {rem : Remote} {X : Type} (c : ApiCall)
    (post : Resp c -> list X) (sweep : list X -> M nat)
    (max_rounds wait_sec : nat) (round_idx : nat) (_ : unit)
  : M (unit + unit) :=
  resp <- call c ;;
  match post resp with
  | [] => ret (inr tt)
  | _ :: _ =>
      blocked <- sweep (post resp) ;;
      if (blocked =? 0)%nat then ret (inr tt)
      else
        (if (round_idx <? max_rounds - 1)%nat then time_sleep wait_sec
         else ret tt) ;;
        ret (inl tt)
  end.

Definition lists_subnets (vpc_id : string) : ApiCall :=
  DescribeSubnets (ByFilters [("vpc-id", [vpc_id])]).

Definition lists_security_groups (vpc_id : string) : ApiCall :=
  DescribeSecurityGroups [("vpc-id", [vpc_id])].

Definition is_listing_of_subnets (e : Event) : bool :=
  match e with Call (DescribeSubnets (ByFilters _)) => true | _ => false end.

Definition deletes_subnet (e : Event) : bool :=
  match e with Call (DeleteSubnet _) => true | _ => false end.

Definition deletes_security_group (e : Event) : bool :=
  match e with Call (DeleteSecurityGroup _) => true | _ => false end.

(** The log record of a deletion that was refused in this round. *)
Definition is_deferral (e : Event) : bool :=
  match e with
  | Log INFO (SubnetDeleteDeferred _ _) | Log INFO (SgDeleteDeferred _ _) => true
  | _ => false
  end.

(** A remote on which the subnet [subnet-stuck] stays listed and every
    deletion of a subnet is refused; one on which it goes away while the
    process sleeps.  The state says whether the subnet is blocked. *)
Definition stuck_api (c : ApiCall) : bool -> ApiResult (Resp c) * bool :=
  match c return bool -> ApiResult (Resp c) * bool with
  | DescribeSubnets _ => fun blocked =>
      (ApiOk [mkSubnet "subnet-stuck" [] "available" "10.20.0.0/24"], blocked)
  | DeleteSubnet _ => fun blocked =>
      if blocked : bool then (ApiErr "DependencyViolation", blocked)
      else (ApiOk tt, blocked)
  | DescribeSecurityGroups _ => fun blocked =>
      (ApiOk [mkSecurityGroup "sg-0" "default" [] [];
              mkSecurityGroup "sg-stuck" "openclaw-ec2-sg" [] []], blocked)
  | DeleteSecurityGroup _ => fun blocked =>
      if blocked : bool then (ApiErr "DependencyViolation", blocked)
      else (ApiOk tt, blocked)
  | DescribeNetworkInterfaces _ => fun blocked =>
      (ApiOk [mkNetworkInterface "eni-1" "in-use"], blocked)
  | DescribeVpcEndpoints _ => fun blocked =>
      (ApiOk [mkVpcEndpoint "vpce-1" "deleting"; mkVpcEndpoint "vpce-2" "deleted"],
       blocked)
  | DeleteVpc _ => fun blocked =>
      if blocked : bool then (ApiErr "DependencyViolation", blocked)
      else (ApiOk tt, blocked)
  | _ => fun blocked => unsupported blocked
  end.

Definition stuck : Remote := {|
  RemoteState := bool;
  api := stuck_api;
  elapse := fun _ blocked => blocked;
  latency := fun _ _ => 1
|}.

Definition unblocks_while_asleep : Remote := {|
  RemoteState := bool;
  api := stuck_api;
  elapse := fun _ _ => false;
  latency := fun _ _ => 1
|}.

(** * Properties *)

(** ** The address picker *)

Lemma find_first_free (existing : list string) (all_sn : list string) (c : string) :
  find (fun c => negb (mem c existing)) all_sn = Some c <->
  exists before after,
    all_sn = before ++ c :: after /\
    mem c existing = false /\
    forall b, In b before -> mem b existing = true.
Proof.
  induction all_sn as [|x l IH]; simpl.
  - split; [discriminate|].
    intros (before & after & H & _). destruct before; discriminate.
  - destruct (mem x existing) eqn:Hx; simpl.
    + rewrite IH. split.
      * intros (before & after & -> & Hc & Hb).
        exists (x :: before), after. repeat split; auto.
        intros b [<-|Hin]; auto.
      * intros (before & after & Heq & Hc & Hb).
        destruct before as [|y before]; simpl in Heq; inversion Heq; subst.
        -- congruence.
        -- exists before, after. repeat split; auto.
           intros b Hin. apply Hb. now right.
    + split.
      * intros [= <-]. exists [], l. repeat split; auto; intros b [].
      * intros (before & after & Heq & Hc & Hb).
        destruct before as [|y before]; simpl in Heq; inversion Heq; subst; auto.
        rewrite (Hb y (or_introl eq_refl)) in Hx. discriminate.
Qed.

Lemma find_free_none (existing : list string) (all_sn : list string) :
  find (fun c => negb (mem c existing)) all_sn = None <->
  forall c, In c all_sn -> mem c existing = true.
Proof.
  induction all_sn as [|x l IH]; simpl.
  - split; auto; intros _ c [].
  - destruct (mem x existing) eqn:Hx; simpl.
    + rewrite IH. split.
      * intros H c [<-|Hin]; auto.
      * intros H c Hin. apply H. now right.
    + split; [discriminate|].
      intros H. rewrite (H x (or_introl eq_refl)) in Hx. discriminate.
Qed.

Lemma pick_cidr_preferred (all_sn existing : list string) (i : nat) (c : string) :
  nth_error all_sn i = Some c ->
  mem c existing = false ->
  _pick_cidr all_sn existing i = Some c.
Proof.
  intros Hn Hc. unfold _pick_cidr.
  assert (Hlt : i < List.length all_sn)
    by (apply nth_error_Some; congruence).
  apply Nat.ltb_lt in Hlt. rewrite Hlt, Hn, Hc. reflexivity.
Qed.

Lemma pick_cidr_fallback (all_sn existing : list string) (i : nat) :
  (forall c, nth_error all_sn i = Some c -> mem c existing = true) ->
  _pick_cidr all_sn existing i = find (fun c => negb (mem c existing)) all_sn.
Proof.
  intros H. unfold _pick_cidr.
  destruct (i <? List.length all_sn)%nat; [|reflexivity].
  destruct (nth_error all_sn i) as [c|] eqn:Hn; [|reflexivity].
  rewrite (H c eq_refl). reflexivity.
Qed.

Example subranges_of_the_first_candidate :
  option_map (fun l => (List.length l, nth_error l 0, nth_error l 10, nth_error l 255))
             (all_subranges net_10_20)
  = Some (256, Some "10.20.0.0/24", Some "10.20.10.0/24", Some "10.20.255.0/24").
Proof. vm_compute. reflexivity. Qed.

(** ** The monad: how a run decomposes *)

Section MonadFacts.

Context {rem : Remote}.

Lemma bind_Ret {A B} (m : M A) (f : A -> M B) (w : World) (a : A) :
  outcome (m w) = Ret a ->
  outcome (bind m f w) = outcome (f a (final (m w))) /\
  final (bind m f w) = final (f a (final (m w))) /\
  events (bind m f w) = events (m w) ++ events (f a (final (m w))).
Proof. intros H. unfold bind. rewrite H. auto. Qed.

Lemma bind_Raise {A B} (m : M A) (f : A -> M B) (w : World) (e : exn) :
  outcome (m w) = Raise e ->
  outcome (bind m f w) = Raise e /\
  final (bind m f w) = final (m w) /\
  events (bind m f w) = events (m w).
Proof. intros H. unfold bind. rewrite H. auto. Qed.

Lemma call_ok (c : ApiCall) (w : World) (a : Resp c) :
  fst (api c (remote w)) = ApiOk a ->
  outcome (call c w) = Ret a /\ events (call c w) = [Call c].
Proof. intros H. unfold call. rewrite H. auto. Qed.

Lemma call_err (c : ApiCall) (w : World) (code : string) :
  fst (api c (remote w)) = ApiErr code ->
  outcome (call c w) = Raise (ClientError code) /\ events (call c w) = [Call c].
Proof. intros H. unfold call. rewrite H. auto. Qed.

Lemma call_events (c : ApiCall) (w : World) : events (call c w) = [Call c].
Proof. unfold call. destruct (fst (api c (remote w))); reflexivity. Qed.

Lemma call_final (c : ApiCall) (w : World) :
  final (call c w) =
    mkWorld (if mutating c then snd (api c (remote w)) else remote w)
            (clock w + latency c (remote w)).
Proof. unfold call. destruct (fst (api c (remote w))); reflexivity. Qed.

(** A client method raises nothing but [ClientError]. *)
Lemma call_raises (c : ApiCall) (w : World) (e : exn) :
  outcome (call c w) = Raise e -> exists code, e = ClientError code.
Proof.
  unfold call. destruct (fst (api c (remote w))); simpl; [discriminate|].
  intros [= <-]. eauto.
Qed.

End MonadFacts.

(** ** Range collisions while creating subnets *)

Section CreateSubnets.

Context {rem : Remote}.
Variables (project vpc_id : string) (az_names all_sn : list string)
          (offset : nat) (tag_prefix : string) (map_public : bool)
          (route_table_id : option string).

Let turn := _create_subnets_turn project vpc_id az_names all_sn offset
              tag_prefix map_public route_table_id.

Lemma turn_collision (i : nat) (result existing : list string) (w : World)
    (sn_cidr code : string) :
  az_names <> [] ->
  _pick_cidr all_sn existing (offset + i) = Some sn_cidr ->
  fst (api (create_subnet_request project vpc_id az_names tag_prefix i sn_cidr)
           (remote w)) = ApiErr code ->
  mem code ["InvalidSubnet.Overlap"; "InvalidSubnet.Range"] = true ->
  outcome (turn i (result, existing) w) = Ret (result, existing) /\
  events (turn i (result, existing) w) =
    [Call (create_subnet_request project vpc_id az_names tag_prefix i sn_cidr);
     Log WARNING (CidrCollision sn_cidr)].
Proof.
  intros Haz Hpick Hapi Hcode.
  unfold turn, _create_subnets_turn.
  destruct az_names as [|az0 azs]; [congruence|].
  rewrite Hpick.
  unfold bind, try_except, call; cbn [outcome final events].
  rewrite Hapi; cbn [outcome final events]. unfold on_range_collision. rewrite Hcode.
  unfold bind, logger, ret; cbn [outcome final events app]. auto.
Qed.

End CreateSubnets.

(** C7.  The picker answers the sub-range at the preferred offset when it
    is free, otherwise the first free sub-range in order, and nothing
    exactly when every sub-range is in use; and a turn of the subnet loop
    whose [create_subnet] is refused with a range collision
    ([InvalidSubnet.Overlap], [InvalidSubnet.Range]) logs it and lets the
    loop go on with the next index, with [result] and the set of used
    ranges as they were. *)
Theorem subnet_ranges_first_free_and_collisions_skipped :
  (forall (all_sn existing : list string) (preferred_idx : nat),
     (forall c, nth_error all_sn preferred_idx = Some c ->
                mem c existing = false ->
                _pick_cidr all_sn existing preferred_idx = Some c) /\
     ((forall c, nth_error all_sn preferred_idx = Some c ->
                 mem c existing = true) ->
      forall c, _pick_cidr all_sn existing preferred_idx = Some c <->
                exists before after,
                  all_sn = before ++ c :: after /\
                  mem c existing = false /\
                  forall b, In b before -> mem b existing = true) /\
     (_pick_cidr all_sn existing preferred_idx = None <->
      forall c, In c all_sn -> mem c existing = true))
  /\
  (forall (rem : Remote) (project vpc_id : string)
          (az_names all_sn : list string) (offset : nat) (tag_prefix : string)
          (map_public : bool) (route_table_id : option string)
          (i n : nat) (result existing : list string) (w : World)
          (sn_cidr code : string),
     az_names <> [] ->
     _pick_cidr all_sn existing (offset + i) = Some sn_cidr ->
     let request :=
       create_subnet_request project vpc_id az_names tag_prefix i sn_cidr in
     fst (api request (remote w)) = ApiErr code ->
     mem code ["InvalidSubnet.Overlap"; "InvalidSubnet.Range"] = true ->
     let turn := _create_subnets_turn project vpc_id az_names all_sn offset
                   tag_prefix map_public route_table_id in
     let this := for_all (seq i (S n)) turn (result, existing) w in
     let rest := for_all (seq (S i) n) turn (result, existing)
                   (final (call request w)) in
     outcome this = outcome rest /\
     final this = final rest /\
     events this =
       Call request :: Log WARNING (CidrCollision sn_cidr) :: events rest).
Proof.
  split.
  - intros all_sn existing i. split; [|split].
    + intros c. apply pick_cidr_preferred.
    + intros H c. rewrite (pick_cidr_fallback _ _ _ H). apply find_first_free.
    + destruct (nth_error all_sn i) as [c|] eqn:Hn.
      * destruct (mem c existing) eqn:Hc.
        -- rewrite pick_cidr_fallback
             by (intros c' Hc'; rewrite Hn in Hc'; injection Hc' as <-; exact Hc).
           apply find_free_none.
        -- rewrite (pick_cidr_preferred _ _ _ _ Hn Hc). split; [discriminate|].
           intros H. apply nth_error_In in Hn. rewrite (H c Hn) in Hc.
           discriminate.
      * rewrite pick_cidr_fallback
          by (intros c' Hc'; rewrite Hn in Hc'; discriminate).
        apply find_free_none.
  - intros rem project vpc_id az_names all_sn offset tag_prefix map_public
      route_table_id i n result existing w sn_cidr code Haz Hpick request
      Hapi Hcode turn this rest.
    assert (Hturn : turn i (result, existing) w =
              mkRun (Ret (result, existing)) (final (call request w))
                [Call request; Log WARNING (CidrCollision sn_cidr)]).
    { unfold turn, _create_subnets_turn.
      destruct az_names as [|az0 azs]; [congruence|].
      rewrite Hpick. fold request.
      unfold bind, try_except, call; cbn [outcome final events].
      rewrite Hapi; cbn [outcome final events].
      unfold on_range_collision. rewrite Hcode.
      unfold bind, logger, ret; cbn [outcome final events app]. reflexivity. }
    subst this rest. cbn [seq for_all].
    destruct (bind_Ret (turn i (result, existing))
                (for_all (seq (S i) n) turn) w (result, existing))
      as (Ho & Hf & He); [rewrite Hturn; reflexivity|].
    rewrite Ho, Hf, He, Hturn. cbn [outcome final events app]. auto.
Qed.

(** The loop of [_create_subnets] on a remote that refuses the first
    request with a collision: the second turn still runs. *)
Lemma collision_is_skipped_on_collide_once :
  let turn := _create_subnets_turn (rem := collide_once) "openclaw" "vpc-1"
                ["us-west-2a"; "us-west-2b"]
                ["10.20.0.0/24"; "10.20.1.0/24"] 0 "public" true (Some "rtb-1") in
  let request := create_subnet_request "openclaw" "vpc-1"
                   ["us-west-2a"; "us-west-2b"] "public" 0 "10.20.0.0/24" in
  let this := for_all (seq 0 2) turn ([], []) (start (rem := collide_once) 0) in
  let rest := for_all (seq 1 1) turn ([], [])
                (final (call request (start (rem := collide_once) 0))) in
  outcome this = outcome rest /\
  final this = final rest /\
  events this =
    Call request :: Log WARNING (CidrCollision "10.20.0.0/24") :: events rest.
Proof.
  apply (proj2 subnet_ranges_first_free_and_collisions_skipped collide_once
           "openclaw" "vpc-1" ["us-west-2a"; "us-west-2b"]
           ["10.20.0.0/24"; "10.20.1.0/24"] 0 "public" true (Some "rtb-1")
           0 1 [] [] (start (rem := collide_once) 0)
           "10.20.0.0/24" "InvalidSubnet.Overlap").
  - discriminate.
  - reflexivity.
  - reflexivity.
  - reflexivity.
Defined.

Example create_subnets_after_a_collision :
  let r := _create_subnets (rem := collide_once) "openclaw" "vpc-1"
             ["us-west-2a"; "us-west-2b"] net_10_20 [] 0 "public" 2 true
             (Some "rtb-1") (start (rem := collide_once) 0) in
  outcome r = Ret (["subnet-10.20.1.0/24"], ["10.20.1.0/24"]) /\
  filter (is_call (fun _ => true)) (events r) =
    [Call (CreateSubnet "vpc-1" "10.20.0.0/24" "us-west-2a" "public-subnet-openclaw-1");
     Call (CreateSubnet "vpc-1" "10.20.1.0/24" "us-west-2b" "public-subnet-openclaw-2");
     Call (DescribeSubnets (BySubnetIds ["subnet-10.20.1.0/24"]));
     Call (ModifySubnetAttribute "subnet-10.20.1.0/24");
     Call (AssociateRouteTable "rtb-1" "subnet-10.20.1.0/24")].
Proof. vm_compute. split; reflexivity. Qed.

(** ** Get-or-create, twice *)

Section GetOrCreateTwice.

Context {rem : Remote}.

(** What a run of [_get_or_create_sg] is, by the answers of the remote. *)
Lemma get_or_create_sg_run (vpc_id name desc : string) (w : World) :
  _get_or_create_sg vpc_id name desc w =
  let lookup := sg_lookup vpc_id name in
  let create := CreateSecurityGroup name desc vpc_id in
  let w1 := mkWorld (remote w) (clock w + latency lookup (remote w)) in
  match fst (api lookup (remote w)) with
  | ApiOk (sg :: _) =>
      mkRun (Ret (GroupId sg)) w1 [Call lookup; Log INFO (SgReused name (GroupId sg))]
  | ApiOk [] =>
      let w2 := mkWorld (snd (api create (remote w)))
                        (clock w1 + latency create (remote w)) in
      match fst (api create (remote w)) with
      | ApiOk sg_id =>
          mkRun (Ret sg_id) w2 [Call lookup; Call create; Log INFO (SgCreated name sg_id)]
      | ApiErr code =>
          mkRun (Raise (ClientError code)) w2 [Call lookup; Call create]
      end
  | ApiErr code => mkRun (Raise (ClientError code)) w1 [Call lookup]
  end.
Proof.
  unfold _get_or_create_sg, sg_lookup, bind, call, logger, ret.
  cbn [outcome final events remote clock mutating].
  destruct (fst (api (DescribeSecurityGroups
                        [("group-name", [name]); ("vpc-id", [vpc_id])]) (remote w)))
    as [[|sg rest]|code];
    cbn [outcome final events remote clock mutating app]; try reflexivity.
  destruct (fst (api (CreateSecurityGroup name desc vpc_id) (remote w)));
    reflexivity.
Qed.

Hypothesis consistent : reads_own_writes rem.

Lemma get_or_create_sg_twice (vpc_id name desc : string) (w : World)
    (sg_id : string) :
  let first := _get_or_create_sg vpc_id name desc w in
  outcome first = Ret sg_id ->
  let second := _get_or_create_sg vpc_id name desc (final first) in
  outcome second = Ret sg_id /\
  events second = [Call (sg_lookup vpc_id name); Log INFO (SgReused name sg_id)] /\
  remote (final second) = remote (final first) /\
  count creates_sg (events first ++ events second) =
    match fst (api (sg_lookup vpc_id name) (remote w)) with
    | ApiOk [] => 1
    | _ => 0
    end.
Proof.
  destruct consistent as [Hsg _].
  intros first Hfirst second. subst first second.
  rewrite (get_or_create_sg_run vpc_id name desc w) in *. cbv zeta in *.
  destruct (fst (api (sg_lookup vpc_id name) (remote w)))
    as [[|sg rest]|code] eqn:Hlook.
  - destruct (fst (api (CreateSecurityGroup name desc vpc_id) (remote w)))
      as [new_id|code] eqn:Hcreate; [|discriminate].
    cbn [outcome final events] in *. injection Hfirst as <-.
    destruct (Hsg _ _ _ _ _ Hlook Hcreate) as (sg & rest & Hfound & Hid).
    rewrite get_or_create_sg_run. cbv zeta. cbn [remote clock].
    rewrite Hfound. cbn [outcome final events remote]. rewrite Hid.
    repeat split.
  - cbn [outcome final events] in *. injection Hfirst as <-.
    rewrite get_or_create_sg_run. cbv zeta. cbn [remote clock].
    rewrite Hlook. cbn [outcome final events remote]. repeat split.
  - discriminate.
Qed.

(** What a run of [_ensure_bedrock_endpoint] is, by the answers of the
    remote. *)
Lemma ensure_bedrock_endpoint_run (region vpc_id : string)
    (private_subnets : list string) (sg_id : string) (w : World) :
  _ensure_bedrock_endpoint region vpc_id private_subnets sg_id w =
  let lookup := endpoint_lookup region vpc_id in
  let create := CreateVpcEndpoint vpc_id (bedrock_service region)
                  private_subnets [sg_id] in
  let w1 := mkWorld (remote w) (clock w + latency lookup (remote w)) in
  match fst (api lookup (remote w)) with
  | ApiOk (ep :: _) =>
      mkRun (Ret (VpcEndpointId ep)) w1
        [Call lookup; Log INFO (EndpointReused (VpcEndpointId ep))]
  | ApiOk [] =>
      let w2 := mkWorld (snd (api create (remote w)))
                        (clock w1 + latency create (remote w)) in
      match fst (api create (remote w)) with
      | ApiOk eid =>
          mkRun (Ret eid) w2 [Call lookup; Call create; Log INFO (EndpointCreated eid)]
      | ApiErr code =>
          mkRun (Raise (ClientError code)) w2 [Call lookup; Call create]
      end
  | ApiErr code => mkRun (Raise (ClientError code)) w1 [Call lookup]
  end.
Proof.
  unfold _ensure_bedrock_endpoint, endpoint_lookup, bedrock_service,
    bind, call, logger, ret.
  cbn [outcome final events remote clock mutating].
  destruct (fst (api (DescribeVpcEndpoints
                        [("vpc-id", [vpc_id]);
                         ("service-name",
                          [("com.amazonaws." ++ region ++ ".bedrock-runtime")%string])])
                     (remote w)))
    as [[|ep rest]|code];
    cbn [outcome final events remote clock mutating app]; try reflexivity.
  destruct (fst (api (CreateVpcEndpoint vpc_id
                        ("com.amazonaws." ++ region ++ ".bedrock-runtime")%string
                        private_subnets [sg_id]) (remote w)));
    reflexivity.
Qed.

Lemma ensure_bedrock_endpoint_twice (region vpc_id : string)
    (private_subnets : list string) (sg_id : string) (w : World)
    (eid : string) :
  let first := _ensure_bedrock_endpoint region vpc_id private_subnets sg_id w in
  outcome first = Ret eid ->
  let second := _ensure_bedrock_endpoint region vpc_id private_subnets sg_id
                  (final first) in
  outcome second = Ret eid /\
  events second = [Call (endpoint_lookup region vpc_id);
                   Log INFO (EndpointReused eid)] /\
  remote (final second) = remote (final first) /\
  count creates_endpoint (events first ++ events second) =
    match fst (api (endpoint_lookup region vpc_id) (remote w)) with
    | ApiOk [] => 1
    | _ => 0
    end.
Proof.
  destruct consistent as [_ Hep].
  intros first Hfirst second. subst first second.
  rewrite (ensure_bedrock_endpoint_run region vpc_id private_subnets sg_id w) in *.
  cbv zeta in *.
  destruct (fst (api (endpoint_lookup region vpc_id) (remote w)))
    as [[|ep rest]|code] eqn:Hlook.
  - destruct (fst (api (CreateVpcEndpoint vpc_id (bedrock_service region)
                          private_subnets [sg_id]) (remote w)))
      as [new_id|code] eqn:Hcreate; [|discriminate].
    cbn [outcome final events] in *. injection Hfirst as <-.
    destruct (Hep _ _ _ _ _ _ Hlook Hcreate) as (ep & rest & Hfound & Hid).
    rewrite ensure_bedrock_endpoint_run. cbv zeta. cbn [remote clock].
    rewrite Hfound. cbn [outcome final events remote]. rewrite Hid.
    repeat split.
  - cbn [outcome final events] in *. injection Hfirst as <-.
    rewrite ensure_bedrock_endpoint_run. cbv zeta. cbn [remote clock].
    rewrite Hlook. cbn [outcome final events remote]. repeat split.
  - discriminate.
Qed.

End GetOrCreateTwice.

Lemma passes_own_filters (k1 v1 k2 v2 : string) :
  String.eqb k1 k2 = false ->
  passes [(k1, [v1]); (k2, [v2])] k1 v1 = true /\
  passes [(k1, [v1]); (k2, [v2])] k2 v2 = true.
Proof.
  intros E. unfold passes, mem. cbn [forallb existsb fst snd].
  rewrite !String.eqb_refl, E. rewrite String.eqb_sym in E. rewrite E.
  auto.
Qed.

Lemma account_reads_own_writes : reads_own_writes account.
Proof.
  split.
  - intros s vpc_id name desc sg_id create Hlook Hcreate.
    subst create. cbn [api account account_api sg_lookup fst snd] in *.
    injection Hlook as Hlook.
    destruct (existsb _ (acc_security_groups s)); [discriminate|].
    cbn [fst snd] in *. injection Hcreate as <-.
    cbn [acc_security_groups]. rewrite filter_app, map_app, Hlook.
    cbn [filter app]. unfold sg_passes at 1. cbn [fst snd GroupName].
    destruct (passes_own_filters "group-name" name "vpc-id" vpc_id eq_refl)
      as [-> ->].
    cbn [andb map fst]. eauto.
  - intros s region vpc_id subnets groups eid create Hlook Hcreate.
    subst create. cbn [api account account_api endpoint_lookup fst snd] in *.
    injection Hlook as Hlook. injection Hcreate as <-.
    cbn [acc_endpoints]. rewrite filter_app, map_app, Hlook.
    cbn [filter app]. unfold endpoint_passes at 1. cbn [fst snd].
    destruct (passes_own_filters "vpc-id" vpc_id "service-name"
                (bedrock_service region) eq_refl) as [-> ->].
    cbn [andb map fst]. eauto.
Qed.



(** ** Bounded waits *)

Lemma count_app {A} (p : A -> bool) (l1 l2 : list A) :
  count p (l1 ++ l2) = count p l1 + count p l2.
Proof. unfold count. rewrite filter_app, length_app. reflexivity. Qed.

Section Waiting.

Context {rem : Remote}.

Lemma wait_nat_poll_run (nat_id : string) (w : World) :
  _wait_nat_poll nat_id w =
  let poll := DescribeNatGateways [nat_id] in
  let w1 := mkWorld (remote w) (clock w + latency poll (remote w)) in
  match fst (api poll (remote w)) with
  | ApiOk (n :: _) =>
      if String.eqb (NatGateway_State n) "available"
      then mkRun (Ret (inr tt)) w1 [Call poll]
      else mkRun (Ret (inl tt))
             (mkWorld (elapse 10 (remote w)) (clock w1 + 10))
             [Call poll; Sleep 10]
  | ApiOk [] => mkRun (Raise IndexError) w1 [Call poll]
  | ApiErr code => mkRun (Raise (ClientError code)) w1 [Call poll]
  end.
Proof.
  unfold _wait_nat_poll, bind, call, subscript0, time_sleep, ret, raise.
  cbn [outcome final events remote clock mutating].
  destruct (fst (api (DescribeNatGateways [nat_id]) (remote w)))
    as [[|n rest]|code];
    cbn [outcome final events remote clock mutating app]; try reflexivity.
  destruct (String.eqb (NatGateway_State n) "available"); reflexivity.
Qed.

Lemma wait_nat_poll_once (nat_id : string) (w : World) :
  count polls_nat_gateway (events (_wait_nat_poll nat_id w)) = 1.
Proof.
  rewrite wait_nat_poll_run. cbv zeta.
  destruct (fst (api (DescribeNatGateways [nat_id]) (remote w)))
    as [[|n rest]|code]; try reflexivity.
  destruct (String.eqb (NatGateway_State n) "available"); reflexivity.
Qed.

Lemma wait_nat_loop_bounded (nat_id : string) (l : list nat) (w : World) :
  count polls_nat_gateway
    (events (for_each l (fun _ (_ : unit) => _wait_nat_poll nat_id) tt w))
  <= List.length l.
Proof.
  revert w. induction l as [|x l IH]; intros w; cbn [for_each List.length].
  - cbn. lia.
  - pose proof (wait_nat_poll_once nat_id w) as Hone.
    destruct (outcome (_wait_nat_poll nat_id w)) as [[[]|[]]|e] eqn:Ho.
    + destruct (bind_Ret _ (fun r : unit + unit =>
                  match r with
                  | inl s' => for_each l (fun _ (_ : unit) => _wait_nat_poll nat_id) s'
                  | inr a => ret (inr a)
                  end) w _ Ho) as (_ & _ & ->).
      rewrite count_app, Hone. specialize (IH (final (_wait_nat_poll nat_id w))).
      lia.
    + destruct (bind_Ret _ (fun r : unit + unit =>
                  match r with
                  | inl s' => for_each l (fun _ (_ : unit) => _wait_nat_poll nat_id) s'
                  | inr a => ret (inr a)
                  end) w _ Ho) as (_ & _ & ->).
      rewrite count_app, Hone. cbn. lia.
    + destruct (bind_Raise _ (fun r : unit + unit =>
                  match r with
                  | inl s' => for_each l (fun _ (_ : unit) => _wait_nat_poll nat_id) s'
                  | inr a => ret (inr a)
                  end) w _ Ho) as (_ & _ & ->).
      lia.
Qed.

Lemma wait_nat_loop_never_available (nat_id : string) (l : list nat)
    (w : World) :
  nat_never_available nat_id 10 (remote w) ->
  let r := for_each l (fun _ (_ : unit) => _wait_nat_poll nat_id) tt w in
  outcome r = Ret (inl tt) /\
  count polls_nat_gateway (events r) = List.length l /\
  count is_sleep (events r) = List.length l /\
  count is_log (events r) = 0.
Proof.
  revert w. induction l as [|x l IH]; intros w Hnever; cbn [for_each List.length].
  - cbn. auto.
  - destruct (Hnever 0) as (n & rest & Hpoll & Hstate). cbn [Nat.iter nat_rect] in Hpoll.
    assert (Hrun : _wait_nat_poll nat_id w =
              mkRun (Ret (inl tt))
                (mkWorld (elapse 10 (remote w))
                   (clock w + latency (DescribeNatGateways [nat_id]) (remote w) + 10))
                [Call (DescribeNatGateways [nat_id]); Sleep 10]).
    { rewrite wait_nat_poll_run. cbv zeta. rewrite Hpoll, Hstate. reflexivity. }
    assert (Ho : outcome (_wait_nat_poll nat_id w) = Ret (inl tt))
      by (rewrite Hrun; reflexivity).
    destruct (bind_Ret _ (fun r : unit + unit =>
                match r with
                | inl s' => for_each l (fun _ (_ : unit) => _wait_nat_poll nat_id) s'
                | inr a => ret (inr a)
                end) w _ Ho) as (-> & _ & ->).
    rewrite Hrun. cbn [final events].
    specialize (IH (mkWorld (elapse 10 (remote w))
                     (clock w + latency (DescribeNatGateways [nat_id]) (remote w) + 10))).
    cbn [remote] in IH.
    destruct IH as (H1 & H2 & H3 & H4).
    { intros k. specialize (Hnever (S k)). rewrite Nat.iter_succ_r in Hnever.
      exact Hnever. }
    rewrite !count_app, H1, H2, H3, H4. cbn. auto.
Qed.

Lemma wait_nat_events (nat_id : string) (w : World) :
  events (_wait_nat nat_id w) =
  events (for_each (seq 0 60) (fun _ (_ : unit) => _wait_nat_poll nat_id) tt w).
Proof.
  unfold _wait_nat, bind.
  destruct (outcome (for_each _ _ tt w)) as [[[]|[]]|e];
    cbn [events ret raise]; rewrite ?app_nil_r; reflexivity.
Qed.

Lemma wait_subnet_poll_run (subnet_id : string) (w : World) :
  _wait_subnet_poll subnet_id w =
  let poll := DescribeSubnets (BySubnetIds [subnet_id]) in
  let w1 := mkWorld (remote w) (clock w + latency poll (remote w)) in
  match fst (api poll (remote w)) with
  | ApiOk (sn :: _) =>
      if String.eqb (Subnet_State sn) "available"
      then mkRun (Ret (Some tt)) w1 [Call poll]
      else mkRun (Ret None)
             (mkWorld (elapse 5 (remote w)) (clock w1 + 5))
             [Call poll; Sleep 5]
  | ApiOk [] => mkRun (Raise IndexError) w1 [Call poll]
  | ApiErr code => mkRun (Raise (ClientError code)) w1 [Call poll]
  end.
Proof.
  unfold _wait_subnet_poll, bind, call, subscript0, time_sleep, ret, raise.
  cbn [outcome final events remote clock mutating].
  destruct (fst (api (DescribeSubnets (BySubnetIds [subnet_id])) (remote w)))
    as [[|n rest]|code];
    cbn [outcome final events remote clock mutating app]; try reflexivity.
  destruct (String.eqb (Subnet_State n) "available"); reflexivity.
Qed.

Lemma wait_subnet_poll_facts (subnet_id : string) (w : World) :
  let p := _wait_subnet_poll subnet_id w in
  count polls_subnet (events p) = 1 /\
  count is_log (events p) = 0 /\
  (outcome p = Ret None ->
   clock w + 5 <= clock (final p) /\ remote (final p) = elapse 5 (remote w)).
Proof.
  rewrite wait_subnet_poll_run. cbv zeta.
  destruct (fst (api (DescribeSubnets (BySubnetIds [subnet_id])) (remote w)))
    as [[|n rest]|code]; cbn [outcome final events clock remote];
    try (repeat split; try reflexivity; discriminate).
  destruct (String.eqb (Subnet_State n) "available");
    cbn [outcome final events clock remote];
    repeat split; try reflexivity; try discriminate; lia.
Qed.

Lemma wait_subnet_loop_unfold (fuel : nat) (subnet_id : string)
    (t0 timeout : nat) (w : World) :
  _wait_subnet_loop (S fuel) subnet_id t0 timeout w =
  if (clock w - t0 <? timeout)%nat then
    let p := _wait_subnet_poll subnet_id w in
    match outcome p with
    | Ret (Some a) => mkRun (Ret (Returned a)) (final p) (events p)
    | Ret None =>
        let r := _wait_subnet_loop fuel subnet_id t0 timeout (final p) in
        mkRun (outcome r) (final r) (events p ++ events r)
    | Raise e => mkRun (Raise e) (final p) (events p)
    end
  else mkRun (Ret Exhausted) w [].
Proof.
  unfold _wait_subnet_loop.
  set (cond := bind time_time (fun now => ret (now - t0 <? timeout)%nat)).
  assert (Hcond : cond w = mkRun (Ret (clock w - t0 <? timeout)%nat) w [])
    by reflexivity.
  cbn [while_do]. unfold bind. rewrite Hcond. cbn [outcome final events app].
  destruct (clock w - t0 <? timeout)%nat; [|reflexivity].
  destruct (outcome (_wait_subnet_poll subnet_id w)) as [[a|]|e];
    cbn [ret outcome final events]; rewrite ?app_nil_r; reflexivity.
Qed.

Lemma wait_subnet_loop_bounded (subnet_id : string) (t0 timeout : nat)
    (fuel : nat) (w : World) :
  t0 <= clock w ->
  timeout - (clock w - t0) < fuel ->
  let r := _wait_subnet_loop fuel subnet_id t0 timeout w in
  outcome r <> Ret OutOfFuel /\
  count polls_subnet (events r) <= (timeout - (clock w - t0) + 4) / 5 /\
  count is_log (events r) = 0.
Proof.
  revert w. induction fuel as [|fuel IH]; intros w Ht0 Hfuel; [lia|].
  cbv zeta. rewrite wait_subnet_loop_unfold.
  destruct (clock w - t0 <? timeout)%nat eqn:Hcond.
  - apply Nat.ltb_lt in Hcond.
    destruct (wait_subnet_poll_facts subnet_id w) as (Hone & Hlog & Hnext).
    cbv zeta in *.
    assert (Hge : 1 <= (timeout - (clock w - t0) + 4) / 5)
      by (apply Nat.div_le_lower_bound; lia).
    destruct (outcome (_wait_subnet_poll subnet_id w)) as [[[]|]|e];
      cbn [outcome events].
    + repeat split; [discriminate|lia|exact Hlog].
    + destruct (Hnext eq_refl) as [Hclock _].
      destruct (IH (final (_wait_subnet_poll subnet_id w))) as (H1 & H2 & H3);
        [lia|lia|].
      cbv zeta in *. split; [exact H1|]. rewrite !count_app, Hone, Hlog, H3.
      split; [|reflexivity].
      assert (Hdiv : (timeout - (clock (final (_wait_subnet_poll subnet_id w)) - t0) + 4) / 5
                     + 1 <= (timeout - (clock w - t0) + 4) / 5).
      { destruct (le_lt_dec 5 (timeout - (clock w - t0))) as [Hbig|Hsmall].
        - rewrite <- (Nat.div_add _ 1 5) by lia.
          apply Nat.Div0.div_le_mono. lia.
        - replace (timeout - (clock (final (_wait_subnet_poll subnet_id w)) - t0))
            with 0 by lia.
          change ((0 + 4) / 5) with 0. lia. }
      lia.
    + repeat split; [discriminate|lia|exact Hlog].
  - cbn [outcome events]. repeat split; [discriminate|cbn; lia].
Qed.

Lemma wait_subnet_loop_never_available (subnet_id : string)
    (t0 timeout : nat) (fuel : nat) (w : World) :
  t0 <= clock w ->
  timeout - (clock w - t0) < fuel ->
  subnet_never_available subnet_id 5 (remote w) ->
  outcome (_wait_subnet_loop fuel subnet_id t0 timeout w) = Ret Exhausted.
Proof.
  revert w. induction fuel as [|fuel IH]; intros w Ht0 Hfuel Hnever; [lia|].
  rewrite wait_subnet_loop_unfold.
  destruct (clock w - t0 <? timeout)%nat eqn:Hcond; [|reflexivity].
  apply Nat.ltb_lt in Hcond. cbv zeta.
  destruct (Hnever 0) as (sn & rest & Hpoll & Hstate).
  cbn [Nat.iter nat_rect] in Hpoll.
  rewrite wait_subnet_poll_run. cbv zeta. rewrite Hpoll, Hstate.
  cbn [outcome final events]. apply IH; cbn [clock remote]; try lia.
  intros k. specialize (Hnever (S k)). rewrite Nat.iter_succ_r in Hnever.
  exact Hnever.
Qed.

End Waiting.

Lemma wait_subnet_as_loop {rem : Remote} (subnet_id : string) (timeout : nat)
    (w : World) :
  _wait_subnet subnet_id timeout w =
  _wait_subnet_loop (S timeout) subnet_id (clock w) timeout w.
Proof.
  unfold _wait_subnet, bind, time_time. cbn [outcome final events app].
  destruct (_wait_subnet_loop (S timeout) subnet_id (clock w) timeout w)
    as [[a|e] f ev]; reflexivity.
Qed.

Lemma always_pending_subnet (subnet_id : string) (step : nat) (s : unit) :
  subnet_never_available (rem := always_pending) subnet_id step s.
Proof.
  intros k. exists (mkSubnet subnet_id [] "pending" ""), []. split; reflexivity.
Qed.

Lemma always_pending_nat (nat_id : string) (step : nat) (s : unit) :
  nat_never_available (rem := always_pending) nat_id step s.
Proof.
  intros k. exists (mkNatGateway nat_id "pending"), []. split; reflexivity.
Qed.




(** ** The propagation wait of the instance profile *)

Section ProfilePropagation.

Context {rem : Remote}.
Variables role_name profile_name : string.

Lemma propagation_poll_run (attempt : nat) (w : World) :
  _ensure_iam_propagation_poll role_name profile_name attempt w =
  let get := GetInstanceProfile profile_name in
  let w1 := mkWorld (remote w) (clock w + latency get (remote w)) in
  if (5 <=? attempt)%nat && shows_role role_name profile_name (remote w)
  then mkRun (Ret (inr tt)) w1 [Call get]
  else mkRun (Ret (inl tt)) (mkWorld (elapse 2 (remote w)) (clock w1 + 2))
         [Call get; Sleep 2].
Proof.
  unfold _ensure_iam_propagation_poll, shows_role, bind, try_except, call,
    time_sleep, ret.
  cbn [outcome final events remote clock mutating].
  destruct (fst (api (GetInstanceProfile profile_name) (remote w)))
    as [profile|code];
    cbn [outcome final events remote clock mutating app is_ClientError].
  - destruct ((5 <=? attempt)%nat
              && existsb (fun r => String.eqb (RoleName r) role_name)
                   (Roles profile)); reflexivity.
  - rewrite andb_false_r. reflexivity.
Qed.

Lemma propagation_loop (n i : nat) (w : World) :
  let r := for_each (seq i n) (fun attempt (_ : unit) =>
             _ensure_iam_propagation_poll role_name profile_name attempt) tt w in
  let seen k :=
    shows_role role_name profile_name (Nat.iter k (elapse 2) (remote w)) in
  (outcome r = Ret (inr tt) /\
   exists k, k < n /\
     count polls_profile (events r) = S k /\
     count is_sleep (events r) = k /\
     5 <= i + k /\ seen k = true /\
     (forall j, j < k -> 5 <= i + j -> seen j = false) /\
     remote (final r) = Nat.iter k (elapse 2) (remote w))
  \/
  (outcome r = Ret (inl tt) /\
   count polls_profile (events r) = n /\
   count is_sleep (events r) = n /\
   (forall j, j < n -> 5 <= i + j -> seen j = false) /\
   remote (final r) = Nat.iter n (elapse 2) (remote w)).
Proof.
  revert i w. induction n as [|n IH]; intros i w; cbv zeta.
  - right. cbn. repeat split; auto. intros j Hj. lia.
  - cbn [seq for_each].
    pose proof (propagation_poll_run i w) as Hrun. cbv zeta in Hrun.
    set (body := fun r : unit + unit =>
           match r with
           | inl s' => for_each (seq (S i) n)
                         (fun attempt (_ : unit) =>
                            _ensure_iam_propagation_poll role_name profile_name
                              attempt) s'
           | inr a => ret (inr a)
           end).
    destruct ((5 <=? i)%nat && shows_role role_name profile_name (remote w))
      eqn:Hbroke.
    + (* break *)
      apply andb_prop in Hbroke. destruct Hbroke as [Hi Hseen].
      apply Nat.leb_le in Hi.
      destruct (bind_Ret (_ensure_iam_propagation_poll role_name profile_name i)
                  body w (inr tt)) as (-> & -> & ->);
        [rewrite Hrun; reflexivity|].
      rewrite Hrun. left. cbn [body ret outcome final events app remote].
      split; [reflexivity|]. exists 0. repeat split; auto; try lia.
    + (* sleep and poll again *)
      destruct (bind_Ret (_ensure_iam_propagation_poll role_name profile_name i)
                  body w (inl tt)) as (-> & -> & ->);
        [rewrite Hrun; reflexivity|].
      rewrite Hrun. cbn [body final events].
      set (w' := mkWorld (elapse 2 (remote w))
                   (clock w + latency (GetInstanceProfile profile_name) (remote w) + 2)).
      assert (Hfirst : 5 <= i ->
                shows_role role_name profile_name (remote w) = false).
      { intros Hi. apply Nat.leb_le in Hi. rewrite Hi in Hbroke. exact Hbroke. }
      destruct (IH (S i) w') as [(Ho & k & Hk & Hp & Hs & Hik & Hseen & Hbefore & Hrem)
                                |(Ho & Hp & Hs & Hbefore & Hrem)];
        subst w'; cbn [remote clock] in *.
      * left. split; [exact Ho|]. exists (S k).
        rewrite !count_app, Hp, Hs. rewrite !Nat.iter_succ_r.
        repeat split; auto; try lia.
        intros [|j] Hj Hij; [cbn; apply Hfirst; lia|].
        rewrite Nat.iter_succ_r. apply Hbefore; lia.
      * right. split; [exact Ho|].
        rewrite !count_app, Hp, Hs. rewrite !Nat.iter_succ_r.
        repeat split; auto.
        intros [|j] Hj Hij; [cbn; apply Hfirst; lia|].
        rewrite Nat.iter_succ_r. apply Hbefore; lia.
Qed.

End ProfilePropagation.

(** C9.  The propagation wait of [_ensure_iam] never raises, reads the
    profile at least 6 and at most 20 times, and leaves by [break] only
    after a read that is the sixth or a later one and shows the role
    attached, namely the first such read: what the first five reads show
    does not matter.  When no read from the sixth on shows the role, the
    loop ends after its 20 reads. *)
Theorem profile_wait_reads_six_to_twenty_times (rem : Remote)
    (role_name profile_name : string) (w : World) :
  let r := _ensure_iam_propagation_wait role_name profile_name w in
  let polls := count polls_profile (events r) in
  let seen k :=
    shows_role role_name profile_name (Nat.iter k (elapse 2) (remote w)) in
  6 <= polls <= 20 /\
  ((outcome r = Ret (inr tt) /\
    exists k, polls = S k /\ 5 <= k /\ seen k = true /\
              (forall j, 5 <= j < k -> seen j = false) /\
              count is_sleep (events r) = k)
   \/
   (outcome r = Ret (inl tt) /\ polls = 20 /\
    (forall j, 5 <= j < 20 -> seen j = false) /\
    count is_sleep (events r) = 20)).
Proof.
  intros r polls seen. subst r polls. unfold _ensure_iam_propagation_wait.
  destruct (propagation_loop role_name profile_name 20 0 w)
    as [(Ho & k & Hk & Hp & Hs & Hik & Hseen & Hbefore & _)
       |(Ho & Hp & Hs & Hbefore & _)]; cbv zeta in *.
  - rewrite Hp. split; [lia|]. left. split; [exact Ho|].
    exists k. repeat split; auto.
    intros j Hj. apply Hbefore; lia.
  - rewrite Hp. split; [lia|]. right. repeat split; auto.
    intros j Hj. apply Hbefore; lia.
Qed.

(** ** Creation that finds the resource already there *)

Section AlreadyExists.

Context {rem : Remote}.

Lemma safe_create_run {A} (create_fn : M A) (already_code label : string)
    (w : World) :
  let c := create_fn w in
  let r := _safe_create create_fn already_code label w in
  final r = final c /\
  match outcome c with
  | Ret a => outcome r = Ret (Some a) /\ events r = events c
  | Raise (ClientError code) =>
      if String.eqb code already_code
      then outcome r = Ret None /\
           events r = events c ++ [Log WARNING (AlreadyExists label)]
      else outcome r = Raise (ClientError code) /\ events r = events c
  | Raise e => outcome r = Raise e /\ events r = events c
  end.
Proof.
  cbv zeta. unfold _safe_create, try_except, bind.
  destruct (outcome (create_fn w)) as [a|e] eqn:Ho;
    cbn [outcome final events ret]; rewrite ?app_nil_r.
  - auto.
  - destruct e as [code| | | | |]; cbn [outcome final events]; rewrite ?Ho; auto.
    destruct (String.eqb code already_code);
      cbn [outcome final events logger ret bind app]; rewrite ?Ho; auto.
Qed.

Lemma create_role_run (role_name : string) (w : World) :
  _ensure_iam_create_role role_name w =
  let c := CreateRole role_name in
  let w1 := mkWorld (snd (api c (remote w))) (clock w + latency c (remote w)) in
  match fst (api c (remote w)) with
  | ApiOk _ => mkRun (Ret tt) w1 [Call c; Log INFO (RoleCreated role_name)]
  | ApiErr code =>
      if String.eqb code "EntityAlreadyExists"
      then mkRun (Ret tt) w1 [Call c; Log INFO (RoleReused role_name)]
      else mkRun (Raise (ClientError code)) w1 [Call c]
  end.
Proof.
  unfold _ensure_iam_create_role, try_except, bind, call, logger.
  cbn [outcome final events remote clock mutating].
  destruct (fst (api (CreateRole role_name) (remote w))) as [[]|code];
    cbn [outcome final events app unless_entity_exists]; [reflexivity|].
  destruct (String.eqb code "EntityAlreadyExists"); reflexivity.
Qed.

Lemma create_profile_run (profile_name : string) (w : World) :
  _ensure_iam_create_profile profile_name w =
  let c := CreateInstanceProfile profile_name in
  let w1 := mkWorld (snd (api c (remote w))) (clock w + latency c (remote w)) in
  match fst (api c (remote w)) with
  | ApiOk _ => mkRun (Ret tt) w1 [Call c; Log INFO (ProfileCreated profile_name)]
  | ApiErr code =>
      if String.eqb code "EntityAlreadyExists"
      then mkRun (Ret tt) w1 [Call c; Log INFO (ProfileReused profile_name)]
      else mkRun (Raise (ClientError code)) w1 [Call c]
  end.
Proof.
  unfold _ensure_iam_create_profile, try_except, bind, call, logger.
  cbn [outcome final events remote clock mutating].
  destruct (fst (api (CreateInstanceProfile profile_name) (remote w)))
    as [[]|code];
    cbn [outcome final events app unless_entity_exists]; [reflexivity|].
  destruct (String.eqb code "EntityAlreadyExists"); reflexivity.
Qed.

(** The first event of a run that starts with a client method. *)
Lemma bind_call_head {B} (c : ApiCall) (f : Resp c -> M B) (w : World) :
  exists rest, events (bind (call c) f w) = Call c :: rest.
Proof.
  unfold bind. destruct (outcome (call c w)); cbn [events];
    rewrite call_events; cbn [app]; eauto.
Qed.

Lemma ensure_iam_role_exists (project : string) (w : World) (code : string) :
  let role_name := (project ++ "-bedrock-role")%string in
  fst (api (CreateRole role_name) (remote w)) = ApiErr code ->
  let r := _ensure_iam project w in
  if String.eqb code "EntityAlreadyExists"
  then exists rest,
         events r = Call (CreateRole role_name)
                    :: Log INFO (RoleReused role_name)
                    :: Call (UpdateAssumeRolePolicy role_name) :: rest
  else outcome r = Raise (ClientError code) /\
       events r = [Call (CreateRole role_name)].
Proof.
  intros role_name Hcreate r. subst r. unfold _ensure_iam. fold role_name.
  pose proof (create_role_run role_name w) as Hrun. cbv zeta in Hrun.
  rewrite Hcreate in Hrun.
  destruct (String.eqb code "EntityAlreadyExists").
  - match goal with
    | |- context [bind (_ensure_iam_create_role role_name) ?f] =>
        destruct (bind_Ret (_ensure_iam_create_role role_name) f w tt)
          as (_ & _ & ->); [rewrite Hrun; reflexivity|]
    end.
    rewrite Hrun. cbn [events final app].
    match goal with
    | |- context [events (bind (call ?c) ?f ?w')] =>
        destruct (bind_call_head c f w') as (rest & ->)
    end.
    eauto.
  - match goal with
    | |- context [bind (_ensure_iam_create_role role_name) ?f] =>
        destruct (bind_Raise (_ensure_iam_create_role role_name) f w
                    (ClientError code)) as (-> & _ & ->);
          [rewrite Hrun; reflexivity|]
    end.
    rewrite Hrun. auto.
Qed.

End AlreadyExists.




(** ** Composing runs that return *)

Section Returns.

Context {rem : Remote}.

Lemma returns_bind {A B} (m : M A) (f : A -> M B) (w w1 w2 : World) (a : A)
    (b : B) (e1 e2 : list Event) :
  returns m w a w1 e1 ->
  returns (f a) w1 b w2 e2 ->
  returns (bind m f) w b w2 (e1 ++ e2).
Proof.
  intros (Ho & Hf & He) (Ho2 & Hf2 & He2). unfold returns.
  destruct (bind_Ret m f w a Ho) as (-> & -> & ->).
  rewrite Hf, He, He2. repeat split; assumption.
Qed.

Lemma returns_ret {A} (a : A) (w : World) : returns (ret a) w a w [].
Proof. repeat split. Qed.

Lemma returns_logger (lvl : Level) (m : Msg) (w : World) :
  returns (logger lvl m) w tt w [Log lvl m].
Proof. repeat split. Qed.

Lemma returns_sleep (n : nat) (w : World) :
  returns (time_sleep n) w tt
    (mkWorld (elapse n (remote w)) (clock w + n)) [Sleep n].
Proof. repeat split. Qed.

Lemma returns_call (c : ApiCall) (w : World) (a : Resp c) :
  fst (api c (remote w)) = ApiOk a ->
  returns (call c) w a
    (mkWorld (if mutating c then snd (api c (remote w)) else remote w)
             (clock w + latency c (remote w)))
    [Call c].
Proof.
  intros H. unfold returns. rewrite call_final, call_events.
  destruct (call_ok c w a H) as [-> _]. auto.
Qed.

Lemma returns_try {A} (m : M A) (h : exn -> option (M A)) (w w' : World)
    (a : A) (ev : list Event) :
  returns m w a w' ev -> returns (try_except m h) w a w' ev.
Proof.
  intros (Ho & Hf & He). unfold returns, try_except. rewrite Ho. auto.
Qed.

Lemma returns_caught {A} (m : M A) (h : exn -> option (M A)) (k : M A)
    (w w' : World) (e : exn) (a : A) (ev : list Event) :
  outcome (m w) = Raise e ->
  h e = Some k ->
  returns k (final (m w)) a w' ev ->
  returns (try_except m h) w a w' (events (m w) ++ ev).
Proof.
  intros Ho Hh (Ho2 & Hf2 & He2). unfold returns, try_except.
  rewrite Ho, Hh. cbn [outcome final events]. rewrite He2. auto.
Qed.

Lemma returns_for_all_nil {X S} (body : X -> S -> M S) (s : S) (w : World) :
  returns (for_all [] body s) w s w [].
Proof. repeat split. Qed.

Lemma returns_for_all_cons {X S} (body : X -> S -> M S) (x : X) (l : list X)
    (s s1 s2 : S) (w w1 w2 : World) (e1 e2 : list Event) :
  returns (body x s) w s1 w1 e1 ->
  returns (for_all l body s1) w1 s2 w2 e2 ->
  returns (for_all (x :: l) body s) w s2 w2 (e1 ++ e2).
Proof. cbn [for_all]. apply returns_bind. Qed.

End Returns.

(** ** Replacing the roles of an instance profile *)

Lemma mem_In (x : string) (l : list string) : mem x l = true <-> In x l.
Proof.
  unfold mem. rewrite existsb_exists. split.
  - intros (y & Hy & E). apply String.eqb_eq in E. now subst.
  - intros H. exists x. split; [assumption|apply String.eqb_refl].
Qed.

Lemma mem_false (x : string) (l : list string) : mem x l = false <-> ~ In x l.
Proof.
  rewrite <- mem_In. destruct (mem x l); split; congruence.
Qed.

Lemma attached_attach (p : string) (rs rs0 : list string)
    (ps : list (string * list string)) :
  attached p ps = Some rs0 -> attached p (attach p rs ps) = Some rs.
Proof.
  induction ps as [|[q qs] ps IH]; cbn [attached attach]; [discriminate|].
  destruct (String.eqb q p) eqn:E; cbn [attached]; rewrite E; auto.
Qed.

Section IamRoles.

Lemma iam_removes_every_role (profile_name : string) (l : list string) :
  forall (w : @World iam) (cur : list string),
    attached profile_name (iam_profiles (remote w)) = Some cur ->
    NoDup l ->
    (forall x, In x cur <-> In x l) ->
    exists w' : @World iam,
      returns
        (for_all l (fun old_role (_ : unit) =>
           logger INFO (OldRoleRemoved old_role profile_name) ;;
           call (RemoveRoleFromInstanceProfile profile_name old_role)) tt)
        w tt w' (removals profile_name l) /\
      iam_roles (remote w') = iam_roles (remote w) /\
      attached profile_name (iam_profiles (remote w')) = Some [].
Proof.
  induction l as [|x l IH]; intros w cur Hatt Hnd Hcur.
  - exists w. split; [apply returns_for_all_nil|]. split; [reflexivity|].
    destruct cur as [|y cur]; [assumption|].
    destruct (proj1 (Hcur y) (or_introl eq_refl)).
  - inversion Hnd as [|? ? Hx Hnd']; subst.
    assert (Hmem : mem x cur = true)
      by (apply mem_In, Hcur; now left).
    set (c := RemoveRoleFromInstanceProfile profile_name x).
    assert (Hok : fst (api c (remote w)) = ApiOk tt).
    { cbn [api iam iam_api c]. rewrite Hatt, Hmem. reflexivity. }
    assert (Hst : snd (api c (remote w)) =
                  mkIam (iam_roles (remote w))
                    (attach profile_name (remove string_dec x cur)
                       (iam_profiles (remote w)))).
    { cbn [api iam iam_api c]. rewrite Hatt, Hmem. reflexivity. }
    pose proof (returns_call c w tt Hok) as Hcall.
    cbn [mutating c] in Hcall. fold c in Hcall. rewrite Hst in Hcall.
    match type of Hcall with
    | returns _ _ _ ?w1 _ =>
        destruct (IH w1 (remove string_dec x cur)) as (w' & Hloop & Hroles & Hend)
    end.
    + cbn [remote iam_profiles]. eapply attached_attach. exact Hatt.
    + assumption.
    + intros y. split.
      * intros Hy. apply in_remove in Hy. destruct Hy as [Hy Hne].
        apply Hcur in Hy. destruct Hy; congruence.
      * intros Hy. apply in_in_remove.
        -- intros ->. contradiction.
        -- apply Hcur. now right.
    + exists w'. split; [|split; [exact Hroles|exact Hend]].
      change (removals profile_name (x :: l))
        with (([Log INFO (OldRoleRemoved x profile_name)] ++ [Call c])
              ++ removals profile_name l).
      eapply returns_for_all_cons; [|exact Hloop].
      eapply returns_bind; [apply returns_logger|exact Hcall].
Qed.

Lemma iam_attach_role (role_name profile_name : string) (w : @World iam)
    (rs : list string) :
  attached profile_name (iam_profiles (remote w)) = Some rs ->
  mem role_name (iam_roles (remote w)) = true ->
  mem role_name rs = false ->
  exists w' : @World iam,
    returns (_ensure_iam_attach_role role_name profile_name) w
      (profile_arn_of profile_name) w'
      ([Sleep 2; Call (GetInstanceProfile profile_name)]
       ++ removals profile_name (nodup string_dec rs)
       ++ [Call (AddRoleToInstanceProfile profile_name role_name)]) /\
    attached profile_name (iam_profiles (remote w')) = Some [role_name].
Proof.
  intros Hatt Hrole Hnot.
  set (w1 := mkWorld (rem := iam) (remote w) (clock w + 2)).
  set (get := GetInstanceProfile profile_name).
  assert (Hget : fst (api get (remote w1)) =
                 ApiOk (mkInstanceProfile (profile_arn_of profile_name)
                          (map mkRole rs))).
  { cbn [api iam iam_api get remote w1]. rewrite Hatt. reflexivity. }
  pose proof (returns_call get w1 _ Hget) as Hcall.
  cbn [mutating get] in Hcall. fold get in Hcall.
  set (w2 := mkWorld (rem := iam) (remote w1) (clock w1 + latency get (remote w1)))
    in Hcall.
  destruct (iam_removes_every_role profile_name (nodup string_dec rs) w2 rs)
    as (w3 & Hloop & Hroles & Hempty).
  { exact Hatt. }
  { apply NoDup_nodup. }
  { intros x. symmetry. apply nodup_In. }
  set (add := AddRoleToInstanceProfile profile_name role_name).
  assert (Hrole3 : mem role_name (iam_roles (remote w3)) = true)
    by (rewrite Hroles; exact Hrole).
  assert (Hadd : fst (api add (remote w3)) = ApiOk tt).
  { cbn [api iam iam_api add]. unfold on_role. rewrite Hrole3, Hempty.
    reflexivity. }
  assert (Hst : snd (api add (remote w3)) =
                mkIam (iam_roles (remote w3))
                  (attach profile_name [role_name] (iam_profiles (remote w3)))).
  { cbn [api iam iam_api add]. unfold on_role. rewrite Hrole3, Hempty.
    reflexivity. }
  pose proof (returns_call add w3 tt Hadd) as Hcall_add.
  cbn [mutating add] in Hcall_add. fold add in Hcall_add.
  rewrite Hst in Hcall_add.
  eexists. split.
  - unfold _ensure_iam_attach_role.
    change ([Sleep 2; Call get] ++ removals profile_name (nodup string_dec rs)
            ++ [Call add])
      with ([Sleep 2] ++ [Call get] ++ removals profile_name (nodup string_dec rs)
            ++ [Call add]).
    eapply returns_bind; [apply returns_sleep|].
    eapply returns_bind; [exact Hcall|].
    cbn [Arn Roles]. rewrite map_map. cbn [RoleName]. rewrite map_id.
    assert (Hnd : mem role_name (nodup string_dec rs) = false).
    { apply mem_false. rewrite nodup_In. apply mem_false. exact Hnot. }
    rewrite Hnd. cbn [negb].
    rewrite <- (app_nil_r (removals profile_name (nodup string_dec rs) ++ [Call add])).
    eapply returns_bind; [|apply returns_ret].
    eapply returns_bind; [exact Hloop|exact Hcall_add].
  - cbn [remote iam_profiles]. eapply attached_attach. exact Hempty.
Qed.

End IamRoles.

Lemma propagation_loop_reads_only {rem : Remote}
    (role_name profile_name : string) (l : list nat) (w : World) :
  filter changes_profile_roles
    (events (for_each l (fun attempt (_ : unit) =>
               _ensure_iam_propagation_poll role_name profile_name attempt) tt w))
  = [].
Proof.
  revert w. induction l as [|i l IH]; intros w; [reflexivity|].
  cbn [for_each]. unfold bind.
  rewrite (propagation_poll_run role_name profile_name i w). cbv zeta.
  destruct ((5 <=? i)%nat && shows_role role_name profile_name (remote w));
    cbn [outcome final events ret app]; [reflexivity|].
  cbn [filter changes_profile_roles]. apply IH.
Qed.

Lemma filter_removals (profile_name : string) (l : list string) :
  filter changes_profile_roles (removals profile_name l) =
  map (fun old_role => Call (RemoveRoleFromInstanceProfile profile_name old_role)) l.
Proof.
  induction l as [|x l IH]; [reflexivity|].
  cbn [removals flat_map app filter changes_profile_roles map].
  f_equal. exact IH.
Qed.

Lemma iter_elapse_iam (k n : nat) (i : Iam) :
  Nat.iter k (elapse (Remote := iam) n) i = i.
Proof. induction k as [|k IH]; [reflexivity|]. cbn. exact IH. Qed.

Section EnsureIamOnIam.

Variable project : string.
Let role_name := (project ++ "-bedrock-role")%string.
Let profile_name := (project ++ "-bedrock-profile")%string.

Lemma iam_create_role (w : @World iam) :
  exists (w1 : @World iam) (ev : list Event),
    returns (_ensure_iam_create_role role_name) w tt w1 ev /\
    mem role_name (iam_roles (remote w1)) = true /\
    iam_profiles (remote w1) = iam_profiles (remote w) /\
    filter changes_profile_roles ev = [].
Proof.
  unfold returns. rewrite create_role_run. cbv zeta.
  cbn [api iam iam_api fst snd].
  destruct (mem role_name (iam_roles (remote w))) eqn:Hmem; cbn [fst snd].
  - change (String.eqb "EntityAlreadyExists" "EntityAlreadyExists") with true.
    cbv iota. do 2 eexists. split; [repeat split|].
    cbn [remote final]. auto.
  - do 2 eexists. split; [repeat split|].
    cbn [remote final iam_roles iam_profiles]. split; [|auto].
    unfold mem. cbn [existsb]. rewrite String.eqb_refl. reflexivity.
Qed.

Lemma iam_role_call (c : ApiCall) (w : @World iam) :
  mem role_name (iam_roles (remote w)) = true ->
  c = UpdateAssumeRolePolicy role_name \/
  c = PutRolePolicy role_name "BedrockAccess" \/
  c = AttachRolePolicy role_name
        "arn:aws:iam::aws:policy/AmazonSSMManagedInstanceCore" ->
  exists a, returns (call c) w a (mkWorld (rem := iam) (remote w) (clock w + 1))
              [Call c].
Proof.
  intros Hmem [-> | [-> | ->]];
    (eexists; unfold returns; rewrite call_final, call_events;
     unfold call; cbn [api iam iam_api mutating fst snd latency];
     unfold on_role; rewrite Hmem; cbn [fst snd outcome]; repeat split).
Qed.

Lemma iam_create_profile (w : @World iam) (rs : list string) :
  attached profile_name (iam_profiles (remote w)) = Some rs ->
  returns (_ensure_iam_create_profile profile_name) w tt
    (mkWorld (rem := iam) (remote w) (clock w + 1))
    [Call (CreateInstanceProfile profile_name);
     Log INFO (ProfileReused profile_name)].
Proof.
  intros Hatt. unfold returns. rewrite create_profile_run. cbv zeta.
  cbn [api iam iam_api fst snd latency]. rewrite Hatt. cbn [fst snd].
  change (String.eqb "EntityAlreadyExists" "EntityAlreadyExists") with true.
  cbv iota. repeat split.
Qed.

Lemma iam_propagation_wait (w : @World iam) :
  exists (u : unit + unit) (w' : @World iam) (ev : list Event),
    returns (_ensure_iam_propagation_wait role_name profile_name) w u w' ev /\
    remote w' = remote w /\
    filter changes_profile_roles ev = [].
Proof.
  unfold _ensure_iam_propagation_wait, returns.
  pose proof (propagation_loop_reads_only role_name profile_name (seq 0 20) w)
    as Hreads.
  destruct (propagation_loop role_name profile_name 20 0 w)
    as [(Ho & k & _ & _ & _ & _ & _ & _ & Hrem)|(Ho & _ & _ & _ & Hrem)];
    cbv zeta in *; rewrite iter_elapse_iam in Hrem;
    do 3 eexists; repeat split; eauto.
Qed.

End EnsureIamOnIam.

(** C10.  On an account whose instance profile exists with roles attached
    that do not include the role of the project, [_ensure_iam] completes,
    and the requests it sends to change the roles of the profile are
    exactly: one removal for every role that was attached, then the
    attachment of the role of the project.  Afterwards the role of the
    project is the only role of the profile. *)
Theorem foreign_roles_are_replaced_by_the_project_role (project : string)
    (w : @World iam) (rs : list string) :
  let role_name := (project ++ "-bedrock-role")%string in
  let profile_name := (project ++ "-bedrock-profile")%string in
  attached profile_name (iam_profiles (remote w)) = Some rs ->
  mem role_name rs = false ->
  let r := _ensure_iam project w in
  outcome r = Ret (role_name, profile_name, profile_arn_of profile_name) /\
  filter changes_profile_roles (events r) =
    map (fun old_role =>
           Call (RemoveRoleFromInstanceProfile profile_name old_role))
        (nodup string_dec rs)
    ++ [Call (AddRoleToInstanceProfile profile_name role_name)] /\
  (forall old_role, In old_role rs ->
     In (Call (RemoveRoleFromInstanceProfile profile_name old_role)) (events r)) /\
  attached profile_name (iam_profiles (remote (final r))) = Some [role_name].
Proof.
  intros role_name profile_name Hatt Hnot r.
  destruct (iam_create_role project w) as (w1 & ev1 & Hr1 & Hmem1 & Hprof1 & Hf1).
  fold role_name in Hr1, Hmem1.
  destruct (iam_role_call project (UpdateAssumeRolePolicy role_name) w1 Hmem1
              (or_introl eq_refl)) as (a2 & Hr2).
  set (w2 := mkWorld (rem := iam) (remote w1) (clock w1 + 1)) in *.
  destruct (iam_role_call project (PutRolePolicy role_name "BedrockAccess") w2
              Hmem1 (or_intror (or_introl eq_refl))) as (a3 & Hr3).
  set (w3 := mkWorld (rem := iam) (remote w2) (clock w2 + 1)) in *.
  destruct (iam_role_call project
              (AttachRolePolicy role_name
                 "arn:aws:iam::aws:policy/AmazonSSMManagedInstanceCore") w3
              Hmem1 (or_intror (or_intror eq_refl))) as (a4 & Hr4).
  set (w4 := mkWorld (rem := iam) (remote w3) (clock w3 + 1)) in *.
  assert (Hatt4 : attached profile_name (iam_profiles (remote w4)) = Some rs)
    by (cbn [remote w4 w3 w2]; rewrite Hprof1; exact Hatt).
  pose proof (iam_create_profile project w4 rs Hatt4) as Hr5.
  fold profile_name in Hr5.
  set (w5 := mkWorld (rem := iam) (remote w4) (clock w4 + 1)) in *.
  destruct (iam_attach_role role_name profile_name w5 rs Hatt4 Hmem1 Hnot)
    as (w6 & Hr6 & Hend).
  destruct (iam_propagation_wait project w6)
    as (u & w7 & ev7 & Hr7 & Hrem7 & Hf7).
  fold role_name profile_name in Hr7.
  assert (Hall : returns (_ensure_iam project) w
            (role_name, profile_name, profile_arn_of profile_name) w7
            (ev1 ++ [Call (UpdateAssumeRolePolicy role_name)]
                 ++ [Call (PutRolePolicy role_name "BedrockAccess")]
                 ++ [Call (AttachRolePolicy role_name
                             "arn:aws:iam::aws:policy/AmazonSSMManagedInstanceCore")]
                 ++ [Call (CreateInstanceProfile profile_name);
                     Log INFO (ProfileReused profile_name)]
                 ++ ([Sleep 2; Call (GetInstanceProfile profile_name)]
                     ++ removals profile_name (nodup string_dec rs)
                     ++ [Call (AddRoleToInstanceProfile profile_name role_name)])
                 ++ [Log INFO ProfilePropagationWait]
                 ++ ev7 ++ [])).
  { unfold _ensure_iam. fold role_name profile_name.
    eapply returns_bind; [exact Hr1|].
    eapply returns_bind; [exact Hr2|].
    eapply returns_bind; [exact Hr3|].
    eapply returns_bind; [apply returns_try; exact Hr4|].
    eapply returns_bind; [exact Hr5|].
    eapply returns_bind; [exact Hr6|].
    eapply returns_bind; [apply returns_logger|].
    eapply returns_bind; [exact Hr7|].
    apply returns_ret. }
  destruct Hall as (Ho & Hfin & Hev). subst r.
  rewrite Ho, Hfin, Hev. split; [reflexivity|].
  assert (Hfilter :
    filter changes_profile_roles
      (ev1 ++ [Call (UpdateAssumeRolePolicy role_name)]
           ++ [Call (PutRolePolicy role_name "BedrockAccess")]
           ++ [Call (AttachRolePolicy role_name
                       "arn:aws:iam::aws:policy/AmazonSSMManagedInstanceCore")]
           ++ [Call (CreateInstanceProfile profile_name);
               Log INFO (ProfileReused profile_name)]
           ++ ([Sleep 2; Call (GetInstanceProfile profile_name)]
               ++ removals profile_name (nodup string_dec rs)
               ++ [Call (AddRoleToInstanceProfile profile_name role_name)])
           ++ [Log INFO ProfilePropagationWait]
           ++ ev7 ++ [])
    = map (fun old_role =>
             Call (RemoveRoleFromInstanceProfile profile_name old_role))
          (nodup string_dec rs)
      ++ [Call (AddRoleToInstanceProfile profile_name role_name)]).
  { rewrite !filter_app, Hf1, Hf7, filter_removals. cbn [filter changes_profile_roles app].
    rewrite app_nil_r. reflexivity. }
  split; [exact Hfilter|]. split.
  - intros old_role Hin.
    assert (Hin' : In (Call (RemoveRoleFromInstanceProfile profile_name old_role))
                     (map (fun old_role =>
                             Call (RemoveRoleFromInstanceProfile profile_name old_role))
                          (nodup string_dec rs)
                      ++ [Call (AddRoleToInstanceProfile profile_name role_name)])).
    { apply in_or_app. left. apply in_map_iff. exists old_role.
      split; [reflexivity|]. apply nodup_In. exact Hin. }
    rewrite <- Hfilter in Hin'. apply filter_In in Hin'. exact (proj1 Hin').
  - rewrite Hrem7. exact Hend.
Qed.

(** The profile of the project still carries the role of an earlier
    deployment. *)
Lemma legacy_role_is_replaced :
  let r := _ensure_iam (rem := iam) "openclaw"
             (start (rem := iam) iam_with_foreign_role) in
  outcome r = Ret ("openclaw-bedrock-role", "openclaw-bedrock-profile",
                   profile_arn_of "openclaw-bedrock-profile") /\
  filter changes_profile_roles (events r) =
    [Call (RemoveRoleFromInstanceProfile "openclaw-bedrock-profile" "legacy-role");
     Call (AddRoleToInstanceProfile "openclaw-bedrock-profile"
             "openclaw-bedrock-role")] /\
  attached "openclaw-bedrock-profile" (iam_profiles (remote (final r)))
    = Some ["openclaw-bedrock-role"].
Proof.
  destruct (foreign_roles_are_replaced_by_the_project_role "openclaw"
              (start (rem := iam) iam_with_foreign_role) ["legacy-role"]
              eq_refl eq_refl) as (H1 & H2 & _ & H4).
  repeat split; assumption.
Defined.

(** ** Classifying the subnets of an existing VPC *)

Lemma split_by_tier_is_a_permutation (tier : Subnet -> Tier)
    (subnets : list Subnet) :
  Permutation (of_tier tier is_public subnets ++ of_tier tier is_private subnets)
              (map SubnetId subnets).
Proof.
  unfold of_tier, is_private.
  induction subnets as [|s l IH]; cbn [filter map app]; [constructor|].
  destruct (is_public (tier s)); cbn [negb map app].
  - constructor. exact IH.
  - apply Permutation_sym, Permutation_cons_app, Permutation_sym. exact IH.
Qed.

Section ClassifySubnets.

Context {rem : Remote}.

Lemma classify_turn_returns (s : Subnet) (pub priv : list string) (w : World) :
  exists w' ev,
    returns (_classify_subnets_turn s (pub, priv)) w
      (if is_public (tier_by_any_route (remote w) s)
       then (pub ++ [SubnetId s], priv)
       else (pub, priv ++ [SubnetId s]))
      w' ev /\
    remote w' = remote w.
Proof.
  unfold _classify_subnets_turn, tier_by_any_route, returns.
  destruct (contains "public" (lower (name_tag s))).
  { do 2 eexists. split; [repeat split|reflexivity]. }
  destruct (contains "private" (lower (name_tag s))).
  { do 2 eexists. split; [repeat split|reflexivity]. }
  unfold try_except, bind, call, route_lookup, has_route_to_igw, ret.
  cbn [outcome final events mutating].
  destruct (fst (api (DescribeRouteTables
                        [("association.subnet-id", [SubnetId s])]) (remote w)))
    as [rts|code]; cbn [outcome final events remote].
  - destruct (existsb via_igw (flat_map Routes rts)); cbn [is_public];
      do 2 eexists; (split; [repeat split|reflexivity]).
  - do 2 eexists. split; [repeat split|reflexivity].
Qed.

Lemma classify_loop_returns (subnets : list Subnet) :
  forall (pub priv : list string) (w : World),
  exists w' ev,
    returns (for_all subnets _classify_subnets_turn (pub, priv)) w
      (pub ++ of_tier (tier_by_any_route (remote w)) is_public subnets,
       priv ++ of_tier (tier_by_any_route (remote w)) is_private subnets)
      w' ev /\
    remote w' = remote w.
Proof.
  induction subnets as [|s l IH]; intros pub priv w.
  - exists w, []. split; [|reflexivity].
    unfold of_tier. cbn [filter map]. rewrite !app_nil_r.
    apply returns_for_all_nil.
  - destruct (classify_turn_returns s pub priv w) as (w1 & ev1 & Hturn & Hrem1).
    unfold of_tier, is_private. cbn [filter].
    destruct (is_public (tier_by_any_route (remote w) s)); cbn [negb map].
    + destruct (IH (pub ++ [SubnetId s]) priv w1) as (w2 & ev2 & Hloop & Hrem2).
      exists w2, (ev1 ++ ev2). split; [|congruence].
      rewrite Hrem1 in Hloop. unfold of_tier, is_private in Hloop.
      rewrite <- app_assoc in Hloop.
      eapply returns_for_all_cons; [exact Hturn|exact Hloop].
    + destruct (IH pub (priv ++ [SubnetId s]) w1) as (w2 & ev2 & Hloop & Hrem2).
      exists w2, (ev1 ++ ev2). split; [|congruence].
      rewrite Hrem1 in Hloop. unfold of_tier, is_private in Hloop.
      rewrite <- app_assoc in Hloop.
      eapply returns_for_all_cons; [exact Hturn|exact Hloop].
Qed.

End ClassifySubnets.

(** C8, as stated, fails: a subnet without a name tag whose route table
    sends 203.0.113.0/24, and no default route, through an internet
    gateway is private by the rule of the claim, and [_classify_subnets]
    puts it in the public list. *)
Lemma route_to_igw_need_not_be_the_default_route :
  let r := _classify_subnets (rem := routed) [untagged_subnet]
             (start (rem := routed) tt) in
  tier_by_default_route (rem := routed) tt untagged_subnet = Private /\
  outcome r = Ret (["subnet-1"], []) /\
  outcome r <>
    Ret (of_tier (tier_by_default_route (rem := routed) tt) is_public [untagged_subnet],
         of_tier (tier_by_default_route (rem := routed) tt) is_private [untagged_subnet]).
Proof. vm_compute. repeat split; discriminate. Qed.

(** C8, amended.  [_classify_subnets] never raises and leaves the remote
    as it is; it puts every subnet in exactly one of the two lists: in the
    public one when its name tag contains "public", in the private one
    when it does not and contains "private"; otherwise in the public one
    when some route of the route tables associated with it goes through an
    internet gateway, whatever its destination, and in the private one
    when none does or when the lookup of the route tables fails. *)
Theorem subnets_are_classified_by_name_then_by_igw_route (rem : Remote)
    (subnets : list Subnet) (w : World) :
  let tier := tier_by_any_route (remote w) in
  let r := _classify_subnets subnets w in
  outcome r = Ret (of_tier tier is_public subnets,
                   of_tier tier is_private subnets) /\
  remote (final r) = remote w /\
  Permutation (of_tier tier is_public subnets ++ of_tier tier is_private subnets)
              (map SubnetId subnets).
Proof.
  intros tier r.
  destruct (classify_loop_returns subnets [] [] w)
    as (w' & ev & (Ho & Hfin & _) & Hrem).
  subst r tier. unfold _classify_subnets. rewrite Ho, Hfin.
  repeat split; [exact Hrem|apply split_by_tier_is_a_permutation].
Qed.

Example classify_mixed_subnets :
  outcome (_classify_subnets (rem := routed) mixed_subnets
             (start (rem := routed) tt))
  = Ret (["subnet-a"; "subnet-1"], ["subnet-b"; "subnet-gone"]).
Proof. vm_compute. reflexivity. Qed.

(** ** What a computation may do: composition *)

Section Emits.

Context {rem : Remote}.
Variable P : Event -> Prop.

Lemma emits_ret {A} (a : A) : emits P (ret a).
Proof. intros w. constructor. Qed.

Lemma emits_raise {A} (e : exn) : emits P (raise (A := A) e).
Proof. intros w. constructor. Qed.

Lemma emits_logger (lvl : Level) (m : Msg) : P (Log lvl m) -> emits P (logger lvl m).
Proof. intros H w. repeat constructor. exact H. Qed.

Lemma emits_sleep (n : nat) : P (Sleep n) -> emits P (time_sleep n).
Proof. intros H w. repeat constructor. exact H. Qed.

Lemma emits_call (c : ApiCall) : P (Call c) -> emits P (call c).
Proof. intros H w. rewrite call_events. repeat constructor. exact H. Qed.

Lemma emits_bind {A B} (m : M A) (f : A -> M B) :
  emits P m -> (forall a, emits P (f a)) -> emits P (bind m f).
Proof.
  intros Hm Hf w. unfold bind.
  destruct (outcome (m w)); cbn [events]; [|apply Hm].
  apply Forall_app. split; [apply Hm|apply Hf].
Qed.

Lemma emits_try {A} (m : M A) (h : exn -> option (M A)) :
  emits P m -> (forall e k, h e = Some k -> emits P k) ->
  emits P (try_except m h).
Proof.
  intros Hm Hh w. unfold try_except.
  destruct (outcome (m w)) as [a|e]; [apply Hm|].
  destruct (h e) as [k|] eqn:Hk; [|apply Hm]. cbn [events].
  apply Forall_app. split; [apply Hm|apply (Hh e k Hk)].
Qed.

Lemma emits_wait_for (c : ApiCall) : P (Call c) -> emits P (wait_for c).
Proof.
  intros H. unfold wait_for. apply emits_try; [apply emits_call, H|].
  intros [code| | | | |] k [= <-]. apply emits_raise.
Qed.

Lemma emits_for_all {X S} (body : X -> S -> M S) (l : list X) :
  (forall x s, emits P (body x s)) -> forall s, emits P (for_all l body s).
Proof.
  intros Hb. induction l as [|x l IH]; intros s; cbn [for_all].
  - apply emits_ret.
  - apply emits_bind; [apply Hb|exact IH].
Qed.

Lemma emits_for_each {X S A} (body : X -> S -> M (S + A)) (l : list X) :
  (forall x s, emits P (body x s)) -> forall s, emits P (for_each l body s).
Proof.
  intros Hb. induction l as [|x l IH]; intros s; cbn [for_each].
  - apply emits_ret.
  - apply emits_bind; [apply Hb|]. intros [s'|a]; [apply IH|apply emits_ret].
Qed.

End Emits.

Section Raises.

Context {rem : Remote}.

Lemma ret_never_raises {A} (a : A) : never_raises (ret a).
Proof. intros w. exists a. reflexivity. Qed.

Lemma logger_never_raises (lvl : Level) (m : Msg) : never_raises (logger lvl m).
Proof. intros w. exists tt. reflexivity. Qed.

Lemma sleep_never_raises (n : nat) : never_raises (time_sleep n).
Proof. intros w. exists tt. reflexivity. Qed.

Lemma bind_never_raises {A B} (m : M A) (f : A -> M B) :
  never_raises m -> (forall a, never_raises (f a)) -> never_raises (bind m f).
Proof.
  intros Hm Hf w. destruct (Hm w) as (a & Ha).
  destruct (bind_Ret m f w a Ha) as (-> & _). apply Hf.
Qed.

Lemma for_all_never_raises {X S} (body : X -> S -> M S) (l : list X) :
  (forall x s, never_raises (body x s)) -> forall s, never_raises (for_all l body s).
Proof.
  intros Hb. induction l as [|x l IH]; intros s; cbn [for_all].
  - apply ret_never_raises.
  - apply bind_never_raises; [apply Hb|exact IH].
Qed.

Lemma for_each_never_raises {X S A} (body : X -> S -> M (S + A)) (l : list X) :
  (forall x s, never_raises (body x s)) ->
  forall s, never_raises (for_each l body s).
Proof.
  intros Hb. induction l as [|x l IH]; intros s; cbn [for_each].
  - apply ret_never_raises.
  - apply bind_never_raises; [apply Hb|].
    intros [s'|a]; [apply IH|apply ret_never_raises].
Qed.

Lemma never_raises_only {A} (m : M A) :
  never_raises m -> raises_only_ClientError m.
Proof. intros H w e He. destruct (H w) as (a & Ha). congruence. Qed.

Lemma call_raises_only (c : ApiCall) : raises_only_ClientError (call c).
Proof.
  intros w e He. destruct (call_raises c w e He) as (code & ->). reflexivity.
Qed.

Lemma bind_raises_only {A B} (m : M A) (f : A -> M B) :
  raises_only_ClientError m -> (forall a, raises_only_ClientError (f a)) ->
  raises_only_ClientError (bind m f).
Proof.
  intros Hm Hf w e. unfold bind.
  destruct (outcome (m w)) as [a|e'] eqn:Ho; cbn [outcome].
  - apply Hf.
  - intros [= <-]. exact (Hm w e' Ho).
Qed.

Lemma for_all_raises_only {X S} (body : X -> S -> M S) (l : list X) :
  (forall x s, raises_only_ClientError (body x s)) ->
  forall s, raises_only_ClientError (for_all l body s).
Proof.
  intros Hb. induction l as [|x l IH]; intros s; cbn [for_all].
  - apply never_raises_only, ret_never_raises.
  - apply bind_raises_only; [apply Hb|exact IH].
Qed.

(** A [try] whose body raises client errors only and whose handler takes
    every client error and returns. *)
Lemma try_never_raises {A} (m : M A) (h : exn -> option (M A)) :
  raises_only_ClientError m ->
  (forall code, exists k, h (ClientError code) = Some k /\ never_raises k) ->
  never_raises (try_except m h).
Proof.
  intros Hm Hh w. unfold try_except.
  destruct (outcome (m w)) as [a|e] eqn:Ho; [eauto|].
  pose proof (Hm w e Ho) as He. destruct e as [code| | | | |]; try discriminate.
  destruct (Hh code) as (k & -> & Hk). cbn [outcome]. apply Hk.
Qed.

End Raises.

(** ** Dismantling the load balancer *)

Section LoadBalancer.

Context {rem : Remote}.

Lemma returns_of_never_raises {A} (m : M A) (w : World) :
  never_raises m -> exists a, returns m w a (final (m w)) (events (m w)).
Proof. intros H. destruct (H w) as (a & Ha). exists a. repeat split. exact Ha. Qed.

Lemma find_alb_never_raises (alb_name : string) : never_raises (find_alb alb_name).
Proof.
  apply try_never_raises.
  - apply bind_raises_only; [apply call_raises_only|].
    intros [|lb rest]; apply never_raises_only, ret_never_raises.
  - intros code. eexists. split; [reflexivity|].
    destruct (negb (String.eqb code "LoadBalancerNotFound")).
    + apply bind_never_raises; [apply logger_never_raises|].
      intros _. apply ret_never_raises.
    + apply ret_never_raises.
Qed.

Lemma find_alb_emits (alb_name : string) :
  emits before_alb_deletion (find_alb alb_name).
Proof.
  apply emits_try.
  - apply emits_bind; [apply emits_call; exact I|].
    intros [|lb rest]; apply emits_ret.
  - intros [code| | | | |] k [= <-].
    destruct (negb (String.eqb code "LoadBalancerNotFound")).
    + apply emits_bind; [apply emits_logger; exact I|]. intros _. apply emits_ret.
    + apply emits_ret.
Qed.

Lemma find_alb_reads_only (alb_name : string) (w : World) :
  remote (final (find_alb alb_name w)) = remote w.
Proof.
  unfold find_alb, try_except, bind, call, logger, ret.
  cbn [outcome final events mutating].
  destruct (fst (api (DescribeLoadBalancers [alb_name]) (remote w)))
    as [[|lb rest]|code]; cbn [outcome final remote]; try reflexivity.
  destruct (negb (String.eqb code "LoadBalancerNotFound")); reflexivity.
Qed.

Lemma delete_listeners_never_raises (alb_arn : string) :
  never_raises (delete_listeners alb_arn).
Proof.
  apply try_never_raises.
  - apply bind_raises_only; [apply call_raises_only|].
    intros listeners. apply for_all_raises_only. intros l [].
    apply bind_raises_only; [apply call_raises_only|].
    intros _. apply never_raises_only, logger_never_raises.
  - intros code. eexists. split; [reflexivity|]. apply logger_never_raises.
Qed.

Lemma delete_listeners_emits (alb_arn : string) :
  emits before_alb_deletion (delete_listeners alb_arn).
Proof.
  apply emits_try.
  - apply emits_bind; [apply emits_call; exact I|].
    intros listeners. apply emits_for_all. intros l [].
    apply emits_bind; [apply emits_call; exact I|].
    intros _. apply emits_logger. exact I.
  - intros [code| | | | |] k [= <-]. apply emits_logger. exact I.
Qed.

Lemma delete_target_groups_never_raises (tg_name : string) :
  never_raises (delete_target_groups tg_name).
Proof.
  apply try_never_raises.
  - apply bind_raises_only; [apply call_raises_only|].
    intros tgs. apply for_all_raises_only. intros tg [].
    apply bind_raises_only; [apply call_raises_only|].
    intros _. apply never_raises_only, logger_never_raises.
  - intros code. eexists. split; [reflexivity|].
    destruct (negb (mem code ["TargetGroupNotFound"; "ResourceInUse"]));
      [apply logger_never_raises|apply ret_never_raises].
Qed.

Lemma delete_target_groups_emits (tg_name : string) :
  emits after_alb_deletion (delete_target_groups tg_name).
Proof.
  apply emits_try.
  - apply emits_bind; [apply emits_call; exact I|].
    intros tgs. apply emits_for_all. intros tg [].
    apply emits_bind; [apply emits_call; exact I|].
    intros _. apply emits_logger. exact I.
  - intros [code| | | | |] k [= <-].
    match goal with |- context [if ?b then _ else _] => destruct b end;
      [apply emits_logger; exact I|apply emits_ret].
Qed.

Lemma delete_alb_and_wait_run (alb_name alb_arn : string) (w : World) :
  outcome (delete_alb_and_wait alb_name alb_arn w) = Ret tt /\
  alb_deletion alb_name alb_arn (events (delete_alb_and_wait alb_name alb_arn w)).
Proof.
  unfold delete_alb_and_wait, wait_for, try_except, bind, call, logger, raise.
  cbn [outcome final events mutating remote clock].
  destruct (fst (api (DeleteLoadBalancer alb_arn) (remote w))) as [[]|code];
    cbn [outcome final events app remote clock].
  - match goal with
    | |- context [fst (api (WaitLoadBalancersDeleted alb_arn 15 40) ?s)] =>
        destruct (fst (api (WaitLoadBalancersDeleted alb_arn 15 40) s)) as [[]|code]
    end; cbn [outcome final events app]; (split; [reflexivity|]).
    + right. left. reflexivity.
    + right. right. reflexivity.
  - split; [reflexivity|]. left. eauto.
Qed.

End LoadBalancer.

Lemma listeners_are_deleted {rem : Remote} (listeners : list Listener) :
  accepts_listener_deletions rem ->
  forall w : World, exists w',
    returns
      (for_all listeners (fun listener (_ : unit) =>
         call (DeleteListener (ListenerArn listener)) ;;
         logger INFO (ListenerDeleted (ListenerArn listener))) tt)
      w tt w' (listener_deletions listeners).
Proof.
  intros Hacc. induction listeners as [|l ls IH]; intros w.
  - exists w. apply returns_for_all_nil.
  - pose proof (returns_call (DeleteListener (ListenerArn l)) w tt
                  (Hacc (remote w) (ListenerArn l))) as Hcall.
    match type of Hcall with
    | returns _ _ _ ?w1 _ => destruct (IH w1) as (w' & Hloop)
    end.
    exists w'.
    change (listener_deletions (l :: ls))
      with (([Call (DeleteListener (ListenerArn l))]
             ++ [Log INFO (ListenerDeleted (ListenerArn l))])
            ++ listener_deletions ls).
    eapply returns_for_all_cons; [|exact Hloop].
    eapply returns_bind; [exact Hcall|apply returns_logger].
Qed.

(** C6.  Every run of [delete_alb_and_target_group] returns, and its
    events come in three parts, in this order: first the lookup of the
    load balancer and the deletion of its listeners; then the deletion of
    the load balancer, followed at once by the wait for it when the
    deletion was accepted; last the requests on the target group.  So no
    listener is deleted after the load balancer, and no target group is
    deleted before the deletion of the load balancer and the wait for it.
    On a remote that accepts the deletion of listeners, every listener
    that is listed is deleted before the load balancer. *)
Theorem load_balancer_is_dismantled_in_order (rem : Remote) (project : string)
    (w : World) :
  let alb_name := substring 0 32 ("alb-" ++ project)%string in
  let r := delete_alb_and_target_group project w in
  outcome r = Ret tt /\
  (exists before lb after,
     events r = before ++ lb ++ after /\
     Forall before_alb_deletion before /\
     (lb = [] \/ exists alb_arn, alb_deletion alb_name alb_arn lb) /\
     Forall after_alb_deletion after) /\
  (accepts_listener_deletions rem ->
   forall (found : LoadBalancer) (others : list LoadBalancer)
          (listeners : list Listener),
     fst (api (DescribeLoadBalancers [alb_name]) (remote w))
       = ApiOk (found :: others) ->
     LoadBalancerArn found <> "" ->
     fst (api (DescribeListeners (LoadBalancerArn found)) (remote w))
       = ApiOk listeners ->
     exists pre post,
       events r = pre ++ listener_deletions listeners
                      ++ Call (DeleteLoadBalancer (LoadBalancerArn found)) :: post).
Proof.
  intros alb_name r. subst r.
  set (tg_name := substring 0 32 ("tg-" ++ project)%string).
  destruct (returns_of_never_raises (find_alb alb_name) w
              (find_alb_never_raises alb_name)) as (found_arn & Hfind).
  pose proof (find_alb_emits alb_name w) as Hfind_ev.
  pose proof (find_alb_reads_only alb_name w) as Hfind_rem.
  set (w1 := final (find_alb alb_name w)) in *.
  set (ev1 := events (find_alb alb_name w)) in *.
  set (mid := match found_arn with
              | Some (String _ _ as alb_arn) =>
                  delete_listeners alb_arn ;;
                  delete_alb_and_wait alb_name alb_arn
              | _ => logger INFO NoAlb
              end).
  assert (Hmid : exists w2 evL evB,
            returns mid w1 tt w2 (evL ++ evB) /\
            Forall before_alb_deletion evL /\
            (evB = [] \/ exists alb_arn, alb_deletion alb_name alb_arn evB) /\
            (forall alb_arn, found_arn = Some alb_arn -> alb_arn <> "" ->
               evL = events (delete_listeners alb_arn w1) /\
               alb_deletion alb_name alb_arn evB)).
  { subst mid. destruct found_arn as [[|c arn']|].
    - exists w1, [Log INFO NoAlb], []. split; [apply returns_logger|].
      split; [repeat constructor|]. split; [now left|].
      intros alb_arn [= <-] Hne. congruence.
    - set (arn := String c arn').
      destruct (returns_of_never_raises (delete_listeners arn) w1
                  (delete_listeners_never_raises arn)) as ([] & HL).
      destruct (delete_alb_and_wait_run alb_name arn
                  (final (delete_listeners arn w1))) as (HoB & HshapeB).
      exists (final (delete_alb_and_wait alb_name arn
                       (final (delete_listeners arn w1)))),
             (events (delete_listeners arn w1)),
             (events (delete_alb_and_wait alb_name arn
                        (final (delete_listeners arn w1)))).
      split; [|split; [apply delete_listeners_emits|split]].
      + eapply returns_bind; [exact HL|]. repeat split. exact HoB.
      + right. exists arn. exact HshapeB.
      + intros alb_arn [= <-] _. split; [reflexivity|exact HshapeB].
    - exists w1, [Log INFO NoAlb], []. split; [apply returns_logger|].
      split; [repeat constructor|]. split; [now left|].
      intros alb_arn [=]. }
  destruct Hmid as (w2 & evL & evB & Hmid & HevL & HevB & Hfound).
  destruct (returns_of_never_raises (delete_target_groups tg_name) w2
              (delete_target_groups_never_raises tg_name)) as ([] & Htg).
  pose proof (delete_target_groups_emits tg_name w2) as Htg_ev.
  set (w3 := final (delete_target_groups tg_name w2)) in *.
  set (ev3 := events (delete_target_groups tg_name w2)) in *.
  assert (Hall : returns (delete_alb_and_target_group project) w tt w3
            ([Log INFO (NextStep "ALB / Target Group")]
             ++ ev1 ++ (evL ++ evB) ++ ev3)).
  { unfold delete_alb_and_target_group.
    eapply returns_bind; [apply returns_logger|].
    eapply returns_bind; [exact Hfind|].
    eapply returns_bind; [exact Hmid|exact Htg]. }
  destruct Hall as (Ho & _ & Hev). subst mid.
  rewrite Ho, Hev. split; [reflexivity|]. split.
  - exists ([Log INFO (NextStep "ALB / Target Group")] ++ ev1 ++ evL), evB, ev3.
    split; [rewrite <- !app_assoc; reflexivity|].
    split; [|split; assumption].
    apply Forall_app. split; [repeat constructor|].
    apply Forall_app. split; assumption.
  - intros Hacc found others listeners Hlook Hne Hlisten.
    assert (Harn : found_arn = Some (LoadBalancerArn found)).
    { destruct Hfind as (Hout & _). revert Hout.
      unfold find_alb, try_except, bind, call.
      rewrite Hlook. cbn [outcome ret]. congruence. }
    destruct (Hfound _ Harn Hne) as (HevL' & Hshape).
    assert (HL : evL = [Call (DescribeListeners (LoadBalancerArn found))]
                       ++ listener_deletions listeners).
    { rewrite HevL'.
      assert (Hdescribe : fst (api (DescribeListeners (LoadBalancerArn found))
                                 (remote w1)) = ApiOk listeners)
        by (rewrite Hfind_rem; exact Hlisten).
      pose proof (returns_call (DescribeListeners (LoadBalancerArn found)) w1
                    listeners Hdescribe) as Hcall.
      match type of Hcall with
      | returns _ _ _ ?w' _ =>
          destruct (listeners_are_deleted listeners Hacc w') as (w'' & Hloop)
      end.
      assert (Hrun : returns (delete_listeners (LoadBalancerArn found)) w1 tt w''
                ([Call (DescribeListeners (LoadBalancerArn found))]
                 ++ listener_deletions listeners)).
      { unfold delete_listeners. apply returns_try.
        eapply returns_bind; [exact Hcall|exact Hloop]. }
      destruct Hrun as (_ & _ & He). exact He. }
    assert (Hhead : exists tail,
              evB = Call (DeleteLoadBalancer (LoadBalancerArn found)) :: tail).
    { destruct Hshape as [(code & ->)|[->| ->]]; eauto. }
    destruct Hhead as (tail & ->).
    exists ([Log INFO (NextStep "ALB / Target Group")] ++ ev1
            ++ [Call (DescribeListeners (LoadBalancerArn found))]),
           (tail ++ ev3).
    rewrite HL. rewrite <- !app_assoc. reflexivity.
Qed.

Lemma elb_accepts_listener_deletions : accepts_listener_deletions elb.
Proof. intros s arn. reflexivity. Qed.

(** A deployed load balancer with two listeners and its target group. *)
Lemma deployed_load_balancer_is_dismantled_in_order :
  exists pre post,
    events (delete_alb_and_target_group (rem := elb) "openclaw"
              (start (rem := elb) elb_deployed))
    = pre ++ listener_deletions [mkListener "arn:listener-80";
                                 mkListener "arn:listener-443"]
          ++ Call (DeleteLoadBalancer "arn:alb") :: post.
Proof.
  exact (proj2 (proj2 (load_balancer_is_dismantled_in_order elb "openclaw"
                         (start (rem := elb) elb_deployed)))
           elb_accepts_listener_deletions
           (mkLoadBalancer "arn:alb") []
           [mkListener "arn:listener-80"; mkListener "arn:listener-443"]
           eq_refl ltac:(discriminate) eq_refl).
Defined.

Example dismantling_the_deployed_load_balancer :
  let r := delete_alb_and_target_group (rem := elb) "openclaw"
             (start (rem := elb) elb_deployed) in
  outcome r = Ret tt /\
  filter (is_call (fun _ => true)) (events r) =
    [Call (DescribeLoadBalancers ["alb-openclaw"]);
     Call (DescribeListeners "arn:alb");
     Call (DeleteListener "arn:listener-80");
     Call (DeleteListener "arn:listener-443");
     Call (DeleteLoadBalancer "arn:alb");
     Call (WaitLoadBalancersDeleted "arn:alb" 15 40);
     Call (DescribeTargetGroups ["tg-openclaw"]);
     Call (DeleteTargetGroup "arn:tg")] /\
  remote (final r) = mkElb [] [] [].
Proof. vm_compute. repeat split. Qed.
